(** * fuser.py: fusing requirements files

    A shallow embedding of [fuser.py] (parse_requirements, fuser, to_string
    and the helpers they call) together with the properties of the
    constraint-fusion algorithm.

    Modelling conventions.
    - Python [str] is [string], a sequence of code points below 256 (among
      them the patterns' [\d] matches the ten ASCII digits only); a tuple is
      a Rocq tuple; a list is a [list]; an insertion-ordered [dict] is an
      association list in insertion order.
    - A raised exception is the [Raise] case of [result]; the exception
      classes are the constructors of [exn].
    - A Python [float] obtained from a [major.minor] text is kept as the exact
      decimal it denotes, [mant * 10^-scale] in lowest terms.  Binary64
      rounding is monotone and is injective on decimals of at most 15
      significant digits, and [repr] returns the shortest such decimal, so on
      version numbers of that size the order, the equality and the printed
      text of the model coincide with Python's.  On longer or huger versions
      they part: [float] rounds, overflows to [inf] from about [1.8e308] on
      and underflows to zero, which a decimal never does.  [binary64_exact]
      marks the versions on which the two agree; a property that would fail
      on the others is stated for these only.
    - The iteration order of a Python [set] of strings is not determined by
      the program text: [fuser] takes it as the argument [order], constrained
      by [set_order]. *)

From Stdlib Require Import Strings.String Strings.Ascii Lists.List Bool.Bool.
From Stdlib Require Import ZArith.ZArith NArith.NArith QArith.QArith.
From Stdlib Require Import Arith.PeanoNat micromega.Lia.
Import ListNotations.
Close Scope Q_scope.
Open Scope string_scope.

(** ** Exceptions and results *)

Inductive exn : Type :=
| DependencyConflictError (msg : string)
| UnsupportedOperatorError (msg : string)
| NameError (msg : string)
| TypeError (msg : string)
| ValueError (msg : string)
| IndexError (msg : string).

Inductive result (A : Type) : Type :=
| Ok (a : A)
| Raise (e : exn).
Arguments Ok {A} a.
Arguments Raise {A} e.

Definition bind {A B : Type} (m : result A) (k : A -> result B) : result B :=
  match m with
  | Ok a => k a
  | Raise e => Raise e
  end.

Notation "x <- m ;; k" := (bind m (fun x => k))
  (at level 61, m at next level, right associativity).

(** [mapM f l] runs [f] over [l] from left to right and stops at the first
    exception, as a Python loop or comprehension does. *)
Fixpoint mapM {A B : Type} (f : A -> result B) (l : list A) : result (list B) :=
  match l with
  | [] => Ok []
  | a :: l' => b <- f a ;; bs <- mapM f l' ;; Ok (b :: bs)
  end.

(** ** Text helpers *)

Definition newline : ascii := "010"%char.

(** [str.split(sep)] for a one-character separator. *)
Fixpoint split (sep : ascii) (s : string) : list string :=
  match s with
  | EmptyString => [EmptyString]
  | String c s' =>
      if Ascii.eqb c sep then EmptyString :: split sep s'
      else match split sep s' with
           | h :: t => String c h :: t
           | [] => [String c EmptyString]
           end
  end.

(** [sep.join(l)] is [String.concat sep l]; [s.startswith(p)] is
    [String.prefix p s]. *)
Definition join (sep : string) (l : list string) : string := String.concat sep l.
Definition startswith (s p : string) : bool := String.prefix p s.

(** Longest prefix of [s] whose characters satisfy [p], and what follows it:
    a greedy character-class repetition [[...]*]. *)
Fixpoint span (p : ascii -> bool) (s : string) : string * string :=
  match s with
  | EmptyString => (EmptyString, EmptyString)
  | String c s' =>
      if p c then let (a, b) := span p s' in (String c a, b)
      else (EmptyString, s)
  end.

Definition between (lo hi : N) (c : ascii) : bool :=
  (lo <=? N_of_ascii c)%N && (N_of_ascii c <=? hi)%N.

Definition is_digit (c : ascii) : bool := between 48 57 c.
Definition is_alpha (c : ascii) : bool := between 65 90 c || between 97 122 c.
Definition is_opchar (c : ascii) : bool :=
  Ascii.eqb c "<" || Ascii.eqb c ">" || Ascii.eqb c "=".
Definition is_verchar (c : ascii) : bool := is_digit c || Ascii.eqb c ".".

(** ** Numbers *)

(** A float read from decimal text: [mant / 10^scale]. *)
Record pyfloat : Type := mkfloat { mant : N; scale : nat }.

Fixpoint pow10 (k : nat) : positive :=
  match k with
  | O => 1%positive
  | S k' => (10 * pow10 k')%positive
  end.

Definition float_Q (f : pyfloat) : Q := Qmake (Z.of_N (mant f)) (pow10 (scale f)).

(** Lowest terms: drop the trailing zeros of the fractional part. *)
Fixpoint normalize (m : N) (s : nat) : pyfloat :=
  match s with
  | O => mkfloat m O
  | S s' => if (m mod 10 =? 0)%N then normalize (m / 10) s' else mkfloat m s
  end.

(** The numbers the fuser computes with: the int [0], floats and
    [math.inf]. *)
Inductive num : Type :=
| Int (z : Z)
| Float (f : pyfloat)
| Inf.

(** [None] stands for plus infinity. *)
Definition num_Q (n : num) : option Q :=
  match n with
  | Int z => Some (inject_Z z)
  | Float f => Some (float_Q f)
  | Inf => None
  end.

Definition Qlt_bool (x y : Q) : bool := negb (Qle_bool y x).

Definition num_lt (a b : num) : bool :=
  match num_Q a, num_Q b with
  | Some x, Some y => Qlt_bool x y
  | Some _, None => true
  | None, _ => false
  end.

Definition num_eq (a b : num) : bool :=
  match num_Q a, num_Q b with
  | Some x, Some y => Qeq_bool x y
  | None, None => true
  | _, _ => false
  end.

(** [max(iterable)]: the first of the largest items. *)
Definition py_max (l : list num) : result num :=
  match l with
  | [] => Raise (ValueError "max() arg is an empty sequence")
  | x :: xs => Ok (fold_left (fun m y => if num_lt m y then y else m) xs x)
  end.

(** [min(iterable)]: the first of the smallest items. *)
Definition py_min (l : list num) : result num :=
  match l with
  | [] => Raise (ValueError "min() arg is an empty sequence")
  | x :: xs => Ok (fold_left (fun m y => if num_lt y m then y else m) xs x)
  end.

Definition float_lt (a b : pyfloat) : bool := Qlt_bool (float_Q a) (float_Q b).
Definition float_eq (a b : pyfloat) : bool := Qeq_bool (float_Q a) (float_Q b).

(** [sorted(l)] on floats: stable, ascending. *)
Fixpoint insert_sorted (x : pyfloat) (l : list pyfloat) : list pyfloat :=
  match l with
  | [] => [x]
  | y :: l' => if float_lt y x then y :: insert_sorted x l' else x :: l
  end.

Definition sorted (l : list pyfloat) : list pyfloat :=
  fold_right insert_sorted [] l.

(** [len(set(l))] on floats: the number of distinct values. *)
Fixpoint distinct (l : list pyfloat) : list pyfloat :=
  match l with
  | [] => []
  | x :: l' => if existsb (float_eq x) l' then distinct l' else x :: distinct l'
  end.

(** [l[0]] and [l[-1]]. *)
Definition first {A : Type} (l : list A) : result A :=
  match l with
  | [] => Raise (IndexError "list index out of range")
  | x :: _ => Ok x
  end.

Definition final {A : Type} (l : list A) : result A :=
  match rev l with
  | [] => Raise (IndexError "list index out of range")
  | x :: _ => Ok x
  end.

(** ** Printing: [str] and [repr] *)

Definition digit_char (d : N) : ascii := ascii_of_N (48 + d).
Definition digit_val (c : ascii) : N := N_of_ascii c - 48.

(** The [w] low decimal digits of [n], most significant first. *)
Fixpoint digits_w (w : nat) (n : N) : string :=
  match w with
  | O => EmptyString
  | S w' => digits_w w' (n / 10) ++ String (digit_char (n mod 10)) EmptyString
  end.

Fixpoint count_digits (fuel : nat) (n : N) : nat :=
  match fuel with
  | O => O
  | S k => if (n =? 0)%N then O else S (count_digits k (n / 10))
  end.

(** Number of decimal digits of [n] (0 for 0); a number has no more decimal
    digits than bits. *)
Definition nb_digits (n : N) : nat := count_digits (N.to_nat (N.size n)) n.

Definition str_N (n : N) : string :=
  if (n =? 0)%N then "0" else digits_w (nb_digits n) n.

Definition str_Z (z : Z) : string :=
  if (z <? 0)%Z then "-" ++ str_N (Z.abs_N z) else str_N (Z.abs_N z).

(** Value of a run of decimal digits, read left to right from [acc]. *)
Fixpoint digits_val (acc : N) (s : string) : N :=
  match s with
  | EmptyString => acc
  | String c s' => digits_val (acc * 10 + digit_val c) s'
  end.

(** [float(i + "." + f)] for digit runs [i] and [f]. *)
Definition float_of_text (i f : string) : pyfloat :=
  normalize (digits_val 0 (i ++ f)) (String.length f).

Fixpoint rstrip0 (s : string) : string :=
  match s with
  | EmptyString => EmptyString
  | String c s' =>
      let r := rstrip0 s' in
      if Ascii.eqb c "0" && String.eqb r EmptyString then EmptyString
      else String c r
  end.

(** [repr] of a float: the shortest decimal, in positional notation when the
    decimal point falls within (-4, 16], with an exponent otherwise. *)
Definition repr_float (f : pyfloat) : string :=
  let g := normalize (mant f) (scale f) in
  let m := mant g in
  let s := scale g in
  if (m =? 0)%N then "0.0"
  else
    let n := nb_digits m in
    let decpt := (Z.of_nat n - Z.of_nat s)%Z in
    if ((-4 <? decpt) && (decpt <=? 16))%Z then
      str_N (m / Npos (pow10 s)) ++ "." ++
      match s with
      | O => "0"
      | S _ => digits_w s (m mod Npos (pow10 s))
      end
    else
      let e := (decpt - 1)%Z in
      let ds :=
        match rstrip0 (digits_w n m) with
        | EmptyString => EmptyString
        | String d EmptyString => String d EmptyString
        | String d rest => String d ("." ++ rest)
        end in
      ds ++ "e" ++ (if (e <? 0)%Z then "-" else "+") ++
      (if (Z.abs_N e <? 10)%N then "0" else "") ++ str_N (Z.abs_N e).

Definition repr_num (n : num) : string :=
  match n with
  | Int z => str_Z z
  | Float f => repr_float f
  | Inf => "inf"
  end.

(** The Python objects that occur in a version slot or in a comparison: the
    string [""], a number, a list of numbers. *)
Inductive value : Type :=
| VStr (s : string)
| VNum (n : num)
| VList (l : list num).

Definition str (v : value) : string :=
  match v with
  | VStr s => s
  | VNum n => repr_num n
  | VList l => "[" ++ join ", " (map repr_num l) ++ "]"
  end.

(** [a == b]: numbers compare by value, lists item by item, and objects of
    different kinds are never equal. *)
Fixpoint list_eq (a b : list num) : bool :=
  match a, b with
  | [], [] => true
  | x :: a', y :: b' => num_eq x y && list_eq a' b'
  | _, _ => false
  end.

Definition py_eq (a b : value) : bool :=
  match a, b with
  | VStr s, VStr t => String.eqb s t
  | VNum x, VNum y => num_eq x y
  | VList x, VList y => list_eq x y
  | _, _ => false
  end.

(** An insertion-ordered [dict] with string keys. *)
Definition dict (V : Type) : Type := list (string * V).

Fixpoint dict_get {V : Type} (k : string) (d : dict V) : option V :=
  match d with
  | [] => None
  | (k', v) :: d' => if String.eqb k k' then Some v else dict_get k d'
  end.

(** [d[k] = v]: an existing key keeps its position. *)
Fixpoint dict_set {V : Type} (k : string) (v : V) (d : dict V) : dict V :=
  match d with
  | [] => [(k, v)]
  | (k', v') :: d' =>
      if String.eqb k k' then (k, v) :: d' else (k', v') :: dict_set k v d'
  end.

Definition dict_values {V : Type} (d : dict V) : list V := map snd d.

(** [x in l] for a list of strings. *)
Definition str_in (x : string) (l : list string) : bool := existsb (String.eqb x) l.

(** ** The module [fuser.py] *)

Definition allowed_ops : list string := ["<"; "<="; "=="; ">="; ">"].

(** The module-level names that hold a list of operators, with the text an
    f-string prints for them.  [allowed_ops] is the only one; reading any
    other such name raises [NameError]. *)
Definition global_ops (name : string) : result string :=
  if String.eqb name "allowed_ops" then Ok "['<', '<=', '==', '>=', '>']"
  else Raise (NameError ("name '" ++ name ++ "' is not defined")).

(** A parsed line: [(package, operator, version)]. *)
Definition RawEntry : Type := (string * string * string)%type.
Definition name_of (e : RawEntry) : string := fst (fst e).
Definition op_of (e : RawEntry) : string := snd (fst e).
Definition version_of (e : RawEntry) : string := snd e.

(** [rgx.search(r)]: the pattern is one or more letters, then any number of
    the characters [<], [>], [=], then any number of digits and dots, each a
    capture group.  The leftmost match starts at the first letter of [r], and
    each group is greedy. *)
Fixpoint rgx (r : string) : option RawEntry :=
  match r with
  | EmptyString => None
  | String c r' =>
      if is_alpha c then
        let (name, r1) := span is_alpha r in
        let (op, r2) := span is_opchar r1 in
        let (ver, _) := span is_verchar r2 in
        Some (name, op, ver)
      else rgx r'
  end.

Definition dependency_conflict_error_msg (pkg : string) (versions : value) : string :=
  "dependency conflict for package '" ++ pkg ++ "' with versions " ++ str versions.

(** [re.search("^\d+\.\d+", v)]: the two digit runs of the match. *)
Definition major_minor (v : string) : option (string * string) :=
  let (i, r) := span is_digit v in
  match i, r with
  | String _ _, String c r' =>
      if Ascii.eqb c "." then
        let (f, _) := span is_digit r' in
        match f with
        | String _ _ => Some (i, f)
        | EmptyString => None
        end
      else None
  | _, _ => None
  end.

(** [version_number_to_float(v)] for a string [v] (the fuser never passes
    [None]): subscripting the failed search raises [TypeError]. *)
Definition version_number_to_float (v : string) : result pyfloat :=
  match major_minor v with
  | Some (i, f) => Ok (float_of_text i f)
  | None => Raise (TypeError "'NoneType' object is not subscriptable")
  end.

(** *** parse_requirements *)

Definition passthrough (r : string) : bool :=
  startswith r "--" || startswith r "git+".

(** The body of the loop over lines, for a line that is kept. *)
Definition parse_line (r : string) : result RawEntry :=
  if passthrough r then Ok (r, "", "")
  else
    match rgx r with
    | Some m => Ok m
    | None => Raise (TypeError "'NoneType' object is not subscriptable")
    end.

Definition kept_line (r : string) : bool :=
  negb (String.length r =? 0)%nat && negb (startswith r "#").

Definition parse_requirements (t : string) : result (list RawEntry) :=
  mapM parse_line (filter kept_line (split newline t)).

(** *** fuser *)

(** The names the set [pkgs] is built from, and what it means for [order] to
    be an iteration order of that set. *)
Definition pkgs (reqs_list : list (list RawEntry)) : list string :=
  map name_of (concat reqs_list).

Definition set_order (elems order : list string) : Prop :=
  NoDup order /\ forall p, In p order <-> In p elems.

(** The comprehension that collects the versioned specs of [pkg]. *)
Definition versioned (pkg : string) (item : RawEntry) : bool :=
  String.eqb (name_of item) pkg && negb (String.length (version_of item) =? 0)%nat.

Definition versions_of (pkg : string) (reqs_list : list (list RawEntry))
  : result (list (string * pyfloat)) :=
  mapM (fun item => v <- version_number_to_float (version_of item) ;;
                    Ok (op_of item, v))
       (filter (versioned pkg) (concat reqs_list)).

(** [sorted(_v for (_op,_v) in versions if _op==op)]. *)
Definition bucket (op : string) (versions : list (string * pyfloat)) : list pyfloat :=
  sorted (map snd (filter (fun ov => String.eqb (fst ov) op) versions)).

Definition versions_by_op (versions : list (string * pyfloat)) : dict (list pyfloat) :=
  fold_left (fun d ov => dict_set (fst ov) (bucket (fst ov) versions) d) versions [].

(** One turn of the loop that fills [op_range]. *)
Definition op_range_step (pkg op : string) (versions : list pyfloat)
  (op_range : dict (num * num)) : result (dict (num * num)) :=
  if str_in op ["<="; "<"] then
    v <- first versions ;; Ok (dict_set op (Int 0, Float v) op_range)
  else if str_in op [">="; ">"] then
    v <- final versions ;; Ok (dict_set op (Float v, Inf) op_range)
  else if String.eqb op "==" && (1 <? List.length (distinct versions))%nat then
    Raise (DependencyConflictError
             (dependency_conflict_error_msg pkg (VList (map Float versions))))
  else if String.eqb op "==" then
    v <- first versions ;; Ok (dict_set op (Float v, Float v) op_range)
  else
    ops <- global_ops "alowed_ops" ;;
    Raise (UnsupportedOperatorError
             ("unsupported operator " ++ op ++ ". epected one of " ++ ops)).

Fixpoint op_range_loop (pkg : string) (items : dict (list pyfloat))
  (op_range : dict (num * num)) : result (dict (num * num)) :=
  match items with
  | [] => Ok op_range
  | (op, versions) :: rest =>
      op_range' <- op_range_step pkg op versions op_range ;;
      op_range_loop pkg rest op_range'
  end.

(** The loop variable [versions] once the loop over a non-empty dict is
    over: the bucket of the last operator. *)
Definition last_bucket (items : dict (list pyfloat)) : list pyfloat :=
  last (dict_values items) [].

Definition range_list (r : num * num) : value := VList [fst r; snd r].

(** What follows the loop: [roof], [floor], the conflict test and the choice
    of the clauses. *)
Definition resolve (pkg : string) (versions : list pyfloat)
  (op_range : dict (num * num)) : result (list (string * value)) :=
  roof <- py_max (map snd (dict_values op_range)) ;;
  floor <- py_min (map fst (dict_values op_range)) ;;
  if num_lt roof floor then
    Raise (DependencyConflictError
             (dependency_conflict_error_msg pkg (VList (map Float versions))))
  else if num_eq roof Inf then
    match dict_get ">=" op_range with
    | Some r =>
        if py_eq (VNum floor) (range_list r) then Ok [(">=", VNum floor)]
        else Ok [(">", VNum floor)]
    | None => Ok [(">", VNum floor)]
    end
  else if num_eq floor (Int 0) then
    match dict_get "<=" op_range with
    | Some r =>
        if py_eq (VNum roof) (range_list r) then Ok [("<=", VNum roof)]
        else Ok [("<", VNum roof)]
    | None => Ok [("<", VNum roof)]
    end
  else Ok [(">=", VNum floor); ("<=", VNum roof)].

(** The body of the loop over packages: the value stored under [pkg]. *)
Definition fuser_pkg (pkg : string) (reqs_list : list (list RawEntry))
  : result (list (string * value)) :=
  versions <- versions_of pkg reqs_list ;;
  match versions with
  | [] => Ok [("", VStr "")]
  | [(op, v)] => Ok [(op, VNum (Float v))]
  | _ =>
      let by_op := versions_by_op versions in
      op_range <- op_range_loop pkg by_op [] ;;
      resolve pkg (last_bucket by_op) op_range
  end.

Fixpoint fuser_loop (reqs_list : list (list RawEntry)) (todo : list string)
  (pkgs_to_versions : dict (list (string * value)))
  : result (dict (list (string * value))) :=
  match todo with
  | [] => Ok pkgs_to_versions
  | pkg :: rest =>
      versions <- fuser_pkg pkg reqs_list ;;
      fuser_loop reqs_list rest (dict_set pkg versions pkgs_to_versions)
  end.

(** [fuser(reqs_list)], the set [pkgs] being visited in the order [order]. *)
Definition fuser (order : list string) (reqs_list : list (list RawEntry))
  : result (dict (list (string * value))) :=
  fuser_loop reqs_list order [].

(** *** to_string *)

Definition clause (ov : string * value) : string := fst ov ++ str (snd ov).

Definition line_of (entry : string * list (string * value)) : string :=
  fst entry ++ join "," (map clause (snd entry)).

Definition to_string (reqs_obj : dict (list (string * value))) : string :=
  join (String newline EmptyString) (map line_of reqs_obj).

(** The example of [fuser]'s docstring, documented to return
    [{'wandb': [('', '')], 'pytorch': [('>=', 2.2), ('<=', 3.0)],
      'editdistance': [('==', 3.2)]}]. *)
Definition docstring_example : list (list RawEntry) :=
  [ [("wandb", "", ""); ("pytorch", ">=", "2.2")];
    [("wandb", "", ""); ("pytorch", "<=", "3.0"); ("editdistance", "==", "3.2")] ].

(** The main program from the file contents on: parse every input, fuse,
    render. *)
Definition main (order : list string) (inputs : list string) : result string :=
  input_requirements <- mapM parse_requirements inputs ;;
  fused_reqs <- fuser order input_requirements ;;
  Ok (to_string fused_reqs).

(** ** Notions used in the statements *)

(** Every character of [s] satisfies [p]. *)
Fixpoint string_forall (p : ascii -> bool) (s : string) : bool :=
  match s with
  | EmptyString => true
  | String c s' => p c && string_forall p s'
  end.

Definition not_newline (c : ascii) : bool := negb (Ascii.eqb c newline).

(** The keys of a dict filled by successive assignments, in insertion
    order. *)
Definition add_key (k : string) (ks : list string) : list string :=
  if str_in k ks then ks else (ks ++ [k])%list.

Definition first_keys (l : list string) : list string :=
  fold_left (fun ks k => add_key k ks) l [].

(** [a <= b] on the numbers of the fuser. *)
Definition num_le (a b : num) : Prop :=
  match num_Q a, num_Q b with
  | Some x, Some y => Qle x y
  | _, None => True
  | None, Some _ => False
  end.

(** Every range of [op_range] has its lower end below its upper end. *)
Definition well_ranged (d : dict (num * num)) : Prop :=
  forall k r, In (k, r) d -> num_le (fst r) (snd r).

(** The two kinds of bounds, and what the loop stores for an operator of
    each kind: [[0, v]] for an upper bound, [[v, inf]] for a lower bound, a
    finite upper end otherwise. *)
Definition lower_op (op : string) : bool := str_in op [">="; ">"].
Definition upper_op (op : string) : bool := str_in op ["<="; "<"].

Definition range_kind (op : string) (r : num * num) : Prop :=
  num_le (Int 0) (fst r)
  /\ (upper_op op = true -> fst r = Int 0)
  /\ (lower_op op = true -> snd r = Inf)
  /\ (lower_op op = false -> exists f, snd r = Float f).

Definition well_kinded (d : dict (num * num)) : Prop :=
  forall k r, In (k, r) d -> range_kind k r.

(** Two sources whose bounds exclude each other, and the versioned specs
    collected from them. *)
Definition disjoint_bounds : list (list RawEntry) :=
  [[("pkgA", "<", "2.0")]; [("pkgA", ">", "3.0")]].
Definition disjoint_versions : list (string * pyfloat) :=
  [("<", mkfloat 2 0); (">", mkfloat 3 0)].

(** The constraint set of [pkg] in a text: the versioned specs the fuser
    collects for it once the text is parsed. *)
Definition constraint_set (pkg text : string) : result (list (string * pyfloat)) :=
  reqs <- parse_requirements text ;; versions_of pkg [reqs].

Definition unconstrained (cs : list (string * value)) : bool :=
  match cs with
  | [(op, VStr s)] => String.eqb op "" && String.eqb s ""
  | _ => false
  end.

Fixpoint same_clauses (cs : list (string * value)) (vs : list (string * pyfloat))
  : bool :=
  match cs, vs with
  | [], [] => true
  | (op, v) :: cs', (op', f) :: vs' =>
      String.eqb op op' && py_eq v (VNum (Float f)) && same_clauses cs' vs'
  | _, _ => false
  end.

(** A resolved constraint and a constraint set say the same: no constraint
    against no versioned spec, or the same operators with equal versions,
    clause by clause. *)
Definition equivalent (cs : list (string * value)) (vs : list (string * pyfloat))
  : bool :=
  if unconstrained cs then match vs with [] => true | _ => false end
  else same_clauses cs vs.

(** Rendering the one-package mapping [{pkg: cs}] and parsing the text back
    gives an equivalent constraint set. *)
Definition round_trip (pkg : string) (cs : list (string * value)) : Prop :=
  exists vs,
    constraint_set pkg (to_string [(pkg, cs)]) = Ok vs /\ equivalent cs vs = true.

(** Every version of [cs] is absent or a float that [repr] prints in
    positional notation, with digits and a dot only. *)
Definition positional (cs : list (string * value)) : bool :=
  forallb (fun ov => match snd ov with
                     | VStr _ => true
                     | VNum (Float f) => string_forall is_verchar (repr_float f)
                     | _ => false
                     end) cs.

(** The characters of a rendered requirement: letters, operator characters,
    digits and dots. *)
Definition is_reqchar (c : ascii) : bool := is_alpha c || is_opchar c || is_verchar c.

(** Two sources that pin the same version. *)
Definition twice_pinned : list (list RawEntry) :=
  [[("pkgA", "==", "3.2")]; [("pkgA", "==", "3.2")]].

(** A requirements file with a comment, a VCS reference and a requirement. *)
Definition vcs_line : string := "git+https://example.org/repo.git".
Definition example_file : string :=
  "# tools" ++ String newline (vcs_line ++ String newline "pkgA>=2.2").

(** ** Further notions *)

(** [s] contains a letter: [rgx] has something to match. *)
Definition has_letter (s : string) : bool :=
  negb (string_forall (fun c => negb (is_alpha c)) s).

(** What may follow a greedy run of characters of the class [p]: nothing, or
    a character outside [p]. *)
Definition stops (p : ascii -> bool) (b : string) : Prop :=
  match b with
  | EmptyString => True
  | String c _ => p c = false
  end.

(** What the loop stores for a bound: the least version of an upper-bound
    bucket, the greatest version of a lower-bound bucket. *)
Definition stored (op : string) (b : list pyfloat) (r : num * num) : Prop :=
  (upper_op op = true -> exists v, first b = Ok v /\ r = (Int 0, Float v))
  /\ (lower_op op = true -> exists v, final b = Ok v /\ r = (Float v, Inf)).

(** ** validate_arguments and the main program *)

(** The exceptions raised around files. *)
Inductive os_exn : Type :=
| FileNotFoundError (msg : string)
| FileExistsError (msg : string).

(** The regular files of the file system, by path, each with the text
    [read_file] returns for it; [os.path.isfile] holds of these paths and of
    no other.  Every regular file is taken to be readable and the file system
    not to change during the run: an [open] that fails on an existing file,
    and the failures of [write_file], are outside the model. *)
Definition files : Type := string -> option string.

Definition isfile (fs : files) (p : string) : bool :=
  match fs p with
  | Some _ => true
  | None => false
  end.

(** How a call that returns [None] ends. *)
Inductive ended : Type :=
| Returned
| Raised (e : os_exn).

(** The loop of [validate_arguments] over the inputs. *)
Fixpoint validate_inputs (fs : files) (inputs : list string) : ended :=
  match inputs with
  | [] => Returned
  | _in :: rest =>
      if negb (isfile fs _in) then
        Raised (FileNotFoundError ("input file '" ++ _in ++ "' not found"))
      else validate_inputs fs rest
  end.

Definition validate_arguments (fs : files) (inputs : list string)
  (output : option string) (overwrite : bool) : ended :=
  match validate_inputs fs inputs with
  | Raised e => Raised e
  | Returned =>
      match output with
      | Some o =>
          if isfile fs o && negb overwrite then
            Raised (FileExistsError
                      ("output file '" ++ o
                       ++ "' aldready exists. use -w --overwrite to bypass"))
          else Returned
      | None => Returned
      end
  end.

(** [read_file(fp)]: the text of the file, or the exception of [open]. *)
Definition read_file (fs : files) (fp : string) : os_exn + string :=
  match fs fp with
  | Some text => inr text
  | None =>
      inl (FileNotFoundError ("[Errno 2] No such file or directory: '" ++ fp ++ "'"))
  end.

Fixpoint read_files (fs : files) (fps : list string) : os_exn + list string :=
  match fps with
  | [] => inr []
  | fp :: rest =>
      match read_file fs fp with
      | inl e => inl e
      | inr text =>
          match read_files fs rest with
          | inl e => inl e
          | inr texts => inr (text :: texts)
          end
      end
  end.

(** [str.strip()]: the white space of [str.isspace] among the code points
    below 256. *)
Definition is_space (c : ascii) : bool :=
  let n := N_of_ascii c in
  (between 9 13 c || between 28 32 c || (n =? 133)%N || (n =? 160)%N).

Fixpoint lstrip (s : string) : string :=
  match s with
  | EmptyString => EmptyString
  | String c s' => if is_space c then lstrip s' else s
  end.

Fixpoint rstrip (s : string) : string :=
  match s with
  | EmptyString => EmptyString
  | String c s' =>
      let r := rstrip s' in
      if is_space c && String.eqb r EmptyString then EmptyString else String c r
  end.

Definition strip (s : string) : string := rstrip (lstrip s).

(** How the program ends: an exception, the fused text printed, or
    [write_file] called on the output path with the fused text. *)
Inductive outcome : Type :=
| Failed_os (e : os_exn)
| Failed (e : exn)
| Printed (text : string)
| Written (path text : string).

(** The main program after [parse_args]: [input], [output] and [overwrite]
    are the three arguments. *)
Definition program (order : list string) (fs : files) (input : string)
  (output : option string) (overwrite : bool) : outcome :=
  let input_reqs_files := map strip (split "|" input) in
  match validate_arguments fs input_reqs_files output overwrite with
  | Raised e => Failed_os e
  | Returned =>
      match read_files fs input_reqs_files with
      | inl e => Failed_os e
      | inr input_requirements =>
          match main order input_requirements with
          | Raise e => Failed e
          | Ok fused_reqs =>
              match output with
              | Some (String c o) => Written (String c o) fused_reqs
              | _ => Printed fused_reqs
              end
          end
      end
  end.

(** A file system with two requirements files and no other file. *)
Definition example_files : files :=
  fun p =>
    if String.eqb p "a.txt" then Some "pkgA>=2.2"
    else if String.eqb p "b.txt" then Some "pkgB"
    else None.






(** The versions on which Python's binary64 [float] and the decimals of this
    file agree in order, equality and printed text: zero, or at most 15
    significant digits with a magnitude from [1e-307] up to (not including)
    [1e308], so that [float] neither merges two of them by rounding, nor
    overflows to [inf], nor underflows to zero. *)
Definition binary64_exact (f : pyfloat) : bool :=
  let g := normalize (mant f) (scale f) in
  let decpt := (Z.of_nat (nb_digits (mant g)) - Z.of_nat (scale g))%Z in
  (mant g =? 0)%N
  || ((nb_digits (mant g) <=? 15)%nat && (-307 <? decpt)%Z && (decpt <=? 308)%Z).

(** * Properties *)

(** ** Results, dicts and the loop over packages *)

Lemma bind_Ok {A B : Type} (m : result A) (k : A -> result B) (b : B) :
  bind m k = Ok b -> exists a, m = Ok a /\ k a = Ok b.
Proof. destruct m as [a|e]; simpl; intros H; [eauto | discriminate]. Qed.

Lemma mapM_Ok_In {A B : Type} (f : A -> result B) (l : list A) (bs : list B) :
  mapM f l = Ok bs -> forall a, In a l -> exists b, f a = Ok b /\ In b bs.
Proof.
  revert bs. induction l as [|x l IH]; intros bs H a Ha; [destruct Ha|].
  simpl in H. apply bind_Ok in H as (b & Hb & H).
  apply bind_Ok in H as (bs' & Hbs & H). inversion H; subst bs; clear H.
  destruct Ha as [->|Ha].
  - exists b. split; [assumption | now left].
  - destruct (IH _ Hbs _ Ha) as (b' & Hf & Hin). exists b'. split; [assumption | now right].
Qed.

Lemma mapM_Ok_inv {A B : Type} (f : A -> result B) (l : list A) (bs : list B) :
  mapM f l = Ok bs -> forall b, In b bs -> exists a, In a l /\ f a = Ok b.
Proof.
  revert bs. induction l as [|x l IH]; intros bs H b Hb; simpl in H.
  - inversion H; subst bs. destruct Hb.
  - apply bind_Ok in H as (b0 & Hb0 & H).
    apply bind_Ok in H as (bs' & Hbs & H). inversion H; subst bs; clear H.
    destruct Hb as [<-|Hb].
    + exists x. split; [now left | assumption].
    + destruct (IH _ Hbs _ Hb) as (a & Ha & Hf). exists a. split; [now right | assumption].
Qed.

Lemma in_concat_mapM {A B : Type} (f : A -> result (list B)) (l : list A)
  (bss : list (list B)) (b : B) :
  mapM f l = Ok bss -> In b (concat bss) ->
  exists a bs, In a l /\ f a = Ok bs /\ In b bs.
Proof.
  intros H Hb. apply in_concat in Hb as (bs & Hbs & Hb).
  destruct (mapM_Ok_inv _ _ _ H _ Hbs) as (a & Ha & Hf). eauto.
Qed.

Lemma dict_get_set_same {V : Type} (k : string) (v : V) (d : dict V) :
  dict_get k (dict_set k v d) = Some v.
Proof.
  induction d as [|[k' v'] d IH]; simpl.
  - now rewrite String.eqb_refl.
  - destruct (String.eqb k k') eqn:E; simpl; rewrite ?String.eqb_refl, ?E; auto.
Qed.

Lemma dict_get_set_other {V : Type} (k k0 : string) (v : V) (d : dict V) :
  k <> k0 -> dict_get k (dict_set k0 v d) = dict_get k d.
Proof.
  intros Hne. induction d as [|[k' v'] d IH]; simpl.
  - apply String.eqb_neq in Hne. now rewrite Hne.
  - destruct (String.eqb k0 k') eqn:E; simpl.
    + apply String.eqb_eq in E. subst k'.
      apply String.eqb_neq in Hne. now rewrite Hne.
    + destruct (String.eqb k k'); auto.
Qed.

Lemma dict_get_In {V : Type} (k : string) (v : V) (d : dict V) :
  dict_get k d = Some v -> In (k, v) d.
Proof.
  induction d as [|[k' v'] d IH]; simpl; [discriminate|].
  destruct (String.eqb k k') eqn:E.
  - apply String.eqb_eq in E. subst k'. intros H; inversion H. now left.
  - intros H. right. auto.
Qed.

Lemma dict_set_not_nil {V : Type} (k : string) (v : V) (d : dict V) :
  dict_set k v d <> [].
Proof.
  destruct d as [|[k' v'] d]; simpl; [discriminate|].
  destruct (String.eqb k k'); discriminate.
Qed.

Lemma dict_set_In {V : Type} (k k0 : string) (v v0 : V) (d : dict V) :
  In (k, v) (dict_set k0 v0 d) -> (k, v) = (k0, v0) \/ In (k, v) d.
Proof.
  induction d as [|[k' v'] d IH]; simpl.
  - intros [H|[]]. left. now symmetry.
  - destruct (String.eqb k0 k'); simpl.
    + intros [H|H]; [left; now symmetry | right; now right].
    + intros [H|H]; [right; now left|].
      destruct (IH H) as [E|Hin]; [now left | right; now right].
Qed.

(** When the loop over packages ends, every package visited holds the value
    its own turn computed, and the other keys are untouched. *)
Lemma fuser_loop_lookup (reqs_list : list (list RawEntry)) (todo : list string) :
  forall acc res, fuser_loop reqs_list todo acc = Ok res ->
  (forall p, In p todo ->
     exists vs, fuser_pkg p reqs_list = Ok vs /\ dict_get p res = Some vs)
  /\ (forall p, ~ In p todo -> dict_get p res = dict_get p acc).
Proof.
  induction todo as [|pkg rest IH]; intros acc res H; simpl in H.
  - inversion H; subst res. split; [intros p []| reflexivity].
  - apply bind_Ok in H as (vs & Hvs & H).
    destruct (IH _ _ H) as [IHin IHout]. split.
    + intros p [<-|Hp].
      * destruct (in_dec string_dec pkg rest) as [Hi|Hn]; [now apply IHin|].
        exists vs. split; [assumption|].
        rewrite (IHout _ Hn). apply dict_get_set_same.
      * now apply IHin.
    + intros p Hp. rewrite IHout by (intros Hi; apply Hp; now right).
      apply dict_get_set_other. intros ->. apply Hp. now left.
Qed.

Lemma fuser_lookup (order : list string) (reqs_list : list (list RawEntry))
  (res : dict (list (string * value))) (p : string) :
  fuser order reqs_list = Ok res -> In p order ->
  exists vs, fuser_pkg p reqs_list = Ok vs /\ dict_get p res = Some vs.
Proof. intros H Hp. apply (proj1 (fuser_loop_lookup _ _ _ _ H)), Hp. Qed.

(** The run returns a mapping as soon as every package fuses. *)
Lemma fuser_loop_total (reqs_list : list (list RawEntry)) (todo : list string) :
  (forall p, In p todo -> exists vs, fuser_pkg p reqs_list = Ok vs) ->
  forall acc, exists res, fuser_loop reqs_list todo acc = Ok res.
Proof.
  induction todo as [|pkg rest IH]; intros H acc; simpl; [eauto|].
  destruct (H pkg (or_introl eq_refl)) as (vs & ->). simpl.
  apply IH. intros p Hp. apply H. now right.
Qed.

(** The run stops at the first package whose turn raises. *)
Lemma fuser_first_failure (reqs_list : list (list RawEntry))
  (before after : list string) (pkg : string) (e : exn) :
  (forall p, In p before -> exists vs, fuser_pkg p reqs_list = Ok vs) ->
  fuser_pkg pkg reqs_list = Raise e ->
  fuser (before ++ pkg :: after) reqs_list = Raise e.
Proof.
  unfold fuser. generalize (@nil (string * list (string * value))).
  induction before as [|b before IH]; intros acc Hb He; simpl.
  - now rewrite He.
  - destruct (Hb b (or_introl eq_refl)) as (vs & ->). simpl.
    apply IH; [|assumption]. intros p Hp. apply Hb. now right.
Qed.

(** A set with one element has one iteration order. *)
Lemma set_order_single (p : string) (elems order : list string) :
  elems <> [] -> (forall q, In q elems -> q = p) ->
  set_order elems order -> order = [p].
Proof.
  intros Hne Hall [Hnd Hiff].
  assert (Hin : forall q, In q order -> q = p) by (intros q Hq; apply Hall, Hiff, Hq).
  destruct elems as [|e elems]; [congruence|].
  assert (Hp : In p order).
  { apply Hiff. left. apply Hall. now left. }
  destruct order as [|a order]; [destruct Hp|].
  assert (a = p) by (apply Hin; now left). subst a.
  destruct order as [|b order]; [reflexivity|].
  assert (b = p) by (apply Hin; right; now left). subst b.
  inversion Hnd as [|? ? Hnot _]. exfalso. apply Hnot. now left.
Qed.

(** With a single package in the inputs, the run is the turn of that
    package, whatever the iteration order. *)
Lemma fuser_one_package (p : string) (reqs_list : list (list RawEntry))
  (order : list string) :
  pkgs reqs_list <> [] -> (forall q, In q (pkgs reqs_list) -> q = p) ->
  set_order (pkgs reqs_list) order ->
  fuser order reqs_list = (versions <- fuser_pkg p reqs_list ;; Ok [(p, versions)]).
Proof.
  intros Hne Hall Ho. rewrite (set_order_single p _ _ Hne Hall Ho).
  unfold fuser. simpl. destruct (fuser_pkg p reqs_list); reflexivity.
Qed.

(** ** Packages without a version *)

Lemma append_nil_r (s : string) : s ++ "" = s.
Proof. induction s as [|c s IH]; simpl; [reflexivity | now rewrite IH]. Qed.

Lemma versions_of_nil (pkg : string) (reqs_list : list (list RawEntry)) :
  (forall item, In item (concat reqs_list) ->
     name_of item = pkg -> version_of item = "") ->
  versions_of pkg reqs_list = Ok [].
Proof.
  intros H. unfold versions_of.
  replace (filter (versioned pkg) (concat reqs_list)) with (@nil RawEntry); [reflexivity|].
  symmetry. induction (concat reqs_list) as [|x l IH]; [reflexivity|].
  simpl. unfold versioned at 1.
  destruct (String.eqb (name_of x) pkg) eqn:E; simpl.
  - apply String.eqb_eq in E. rewrite (H x (or_introl eq_refl) E). simpl.
    apply IH. intros item Hi. apply H. now right.
  - apply IH. intros item Hi. apply H. now right.
Qed.

(** C7. A package that occurs in the inputs, and nowhere with a version, is
    resolved to no constraint [[("", "")]]; it is printed as its bare name,
    and it is a key of every mapping the run returns. *)
Theorem fuser_unversioned_package (pkg : string) (reqs_list : list (list RawEntry)) :
  In pkg (pkgs reqs_list) ->
  (forall item, In item (concat reqs_list) ->
     name_of item = pkg -> version_of item = "") ->
  fuser_pkg pkg reqs_list = Ok [("", VStr "")]
  /\ line_of (pkg, [("", VStr "")]) = pkg
  /\ forall order res, set_order (pkgs reqs_list) order ->
       fuser order reqs_list = Ok res ->
       dict_get pkg res = Some [("", VStr "")] /\ In pkg (map line_of res).
Proof.
  intros Hin Hnov.
  assert (Hp : fuser_pkg pkg reqs_list = Ok [("", VStr "")]).
  { unfold fuser_pkg. now rewrite (versions_of_nil _ _ Hnov). }
  assert (Hl : line_of (pkg, [("", VStr "")]) = pkg).
  { unfold line_of, clause. simpl. apply append_nil_r. }
  repeat split; try assumption.
  - destruct H as [_ Hiff]. apply Hiff in Hin.
    destruct (fuser_lookup _ _ _ _ H0 Hin) as (vs & Hvs & Hget). congruence.
  - destruct H as [_ Hiff]. apply Hiff in Hin.
    destruct (fuser_lookup _ _ _ _ H0 Hin) as (vs & Hvs & Hget).
    rewrite Hp in Hvs. inversion Hvs; subst vs.
    apply dict_get_In in Hget. rewrite <- Hl at 1.
    apply (in_map line_of _ _ Hget).
Qed.

Lemma fuser_unversioned_package_witness :
  In "wandb" (pkgs docstring_example)
  /\ (forall item, In item (concat docstring_example) ->
        name_of item = "wandb" -> version_of item = "")
  /\ fuser_pkg "wandb" docstring_example = Ok [("", VStr "")]
  /\ line_of ("wandb", [("", VStr "")]) = "wandb"
  /\ forall order res, set_order (pkgs docstring_example) order ->
       fuser order docstring_example = Ok res ->
       dict_get "wandb" res = Some [("", VStr "")] /\ In "wandb" (map line_of res).
Proof.
  assert (H1 : In "wandb" (pkgs docstring_example)) by (simpl; auto).
  assert (H2 : forall item, In item (concat docstring_example) ->
                 name_of item = "wandb" -> version_of item = "").
  { simpl. intros item H.
    repeat (destruct H as [<-|H]; [vm_compute; intros E; try reflexivity; discriminate E|]).
    destruct H. }
  split; [exact H1|]. split; [exact H2|].
  exact (fuser_unversioned_package "wandb" docstring_example H1 H2).
Defined.

(** ** The order on numbers, [min] and [max] *)

Lemma num_lt_false (a b : num) : num_lt b a = false <-> num_le a b.
Proof.
  unfold num_lt, num_le, Qlt_bool.
  destruct (num_Q a) as [x|], (num_Q b) as [y|]; simpl.
  - rewrite negb_false_iff. apply Qle_bool_iff.
  - tauto.
  - split; [discriminate | tauto].
  - tauto.
Qed.

Lemma num_le_refl (a : num) : num_le a a.
Proof. unfold num_le. destruct (num_Q a); [apply Qle_refl | exact I]. Qed.

Lemma num_le_trans (a b c : num) : num_le a b -> num_le b c -> num_le a c.
Proof.
  unfold num_le.
  destruct (num_Q a) as [x|], (num_Q b) as [y|], (num_Q c) as [z|];
    try tauto. apply Qle_trans.
Qed.

Lemma num_lt_le (a b : num) : num_lt a b = true -> num_le a b.
Proof.
  unfold num_lt, num_le, Qlt_bool.
  destruct (num_Q a) as [x|], (num_Q b) as [y|]; simpl; try tauto; try discriminate.
  rewrite negb_true_iff. intros H. apply Qlt_le_weak, Qnot_le_lt.
  intros Hle. apply Qle_bool_iff in Hle. congruence.
Qed.

Lemma fold_max_ge (xs : list num) (m : num) :
  num_le m (fold_left (fun m y => if num_lt m y then y else m) xs m).
Proof.
  revert m. induction xs as [|y xs IH]; intros m; simpl; [apply num_le_refl|].
  destruct (num_lt m y) eqn:E; [|apply IH].
  apply (num_le_trans _ y); [now apply num_lt_le | apply IH].
Qed.

Lemma fold_min_le (xs : list num) (m : num) :
  num_le (fold_left (fun m y => if num_lt y m then y else m) xs m) m.
Proof.
  revert m. induction xs as [|y xs IH]; intros m; simpl; [apply num_le_refl|].
  destruct (num_lt y m) eqn:E; [|apply IH].
  apply (num_le_trans _ y); [apply IH | now apply num_lt_le].
Qed.

Lemma float_nonneg (f : pyfloat) : num_le (Int 0) (Float f).
Proof.
  unfold num_le, num_Q, float_Q, Qle. simpl. lia.
Qed.

Lemma num_le_antisym (a b : num) : num_le a b -> num_le b a -> num_eq a b = true.
Proof.
  unfold num_le, num_eq.
  destruct (num_Q a) as [x|], (num_Q b) as [y|]; try tauto.
  intros H1 H2. apply Qeq_bool_iff. now apply Qle_antisym.
Qed.

Lemma num_le_Inf (a : num) : num_le Inf a -> num_eq a Inf = true.
Proof. unfold num_le, num_eq. simpl. destruct (num_Q a); tauto. Qed.

(** [max] is one of the items and is at least each of them; likewise
    [min]. *)
Lemma fold_max_all (xs : list num) :
  forall m x, In x (m :: xs) ->
  num_le x (fold_left (fun m y => if num_lt m y then y else m) xs m).
Proof.
  induction xs as [|y xs IH]; intros m x Hx.
  - destruct Hx as [<-|[]]. apply num_le_refl.
  - cbn [fold_left]. destruct Hx as [<-|[<-|Hx]].
    + apply (num_le_trans _ (if num_lt m y then y else m)); [|apply fold_max_ge].
      destruct (num_lt m y) eqn:E; [now apply num_lt_le | apply num_le_refl].
    + apply (num_le_trans _ (if num_lt m y then y else m)); [|apply fold_max_ge].
      destruct (num_lt m y) eqn:E; [apply num_le_refl | now apply num_lt_false].
    + apply IH. now right.
Qed.

Lemma fold_min_all (xs : list num) :
  forall m x, In x (m :: xs) ->
  num_le (fold_left (fun m y => if num_lt y m then y else m) xs m) x.
Proof.
  induction xs as [|y xs IH]; intros m x Hx.
  - destruct Hx as [<-|[]]. apply num_le_refl.
  - cbn [fold_left]. destruct Hx as [<-|[<-|Hx]].
    + apply (num_le_trans _ (if num_lt y m then y else m)); [apply fold_min_le|].
      destruct (num_lt y m) eqn:E; [now apply num_lt_le | apply num_le_refl].
    + apply (num_le_trans _ (if num_lt y m then y else m)); [apply fold_min_le|].
      destruct (num_lt y m) eqn:E; [apply num_le_refl | now apply num_lt_false].
    + apply IH. now right.
Qed.

Lemma fold_pick_In (pick : num -> num -> bool) (xs : list num) :
  forall m, In (fold_left (fun m y => if pick m y then y else m) xs m) (m :: xs).
Proof.
  induction xs as [|y xs IH]; intros m; cbn [fold_left]; [now left|].
  destruct (IH (if pick m y then y else m)) as [H|H]; [|right; now right].
  rewrite <- H. destruct (pick m y); [right; now left | now left].
Qed.

Lemma py_max_spec (l : list num) (roof : num) :
  py_max l = Ok roof -> In roof l /\ forall x, In x l -> num_le x roof.
Proof.
  destruct l as [|m xs]; [discriminate|]. intros H. inversion H. split.
  - apply (fold_pick_In (fun m y => num_lt m y)).
  - intros x Hx. now apply fold_max_all.
Qed.

Lemma py_min_spec (l : list num) (floor : num) :
  py_min l = Ok floor -> In floor l /\ forall x, In x l -> num_le floor x.
Proof.
  destruct l as [|m xs]; [discriminate|]. intros H. inversion H. split.
  - apply (fold_pick_In (fun m y => num_lt y m)).
  - intros x Hx. now apply fold_min_all.
Qed.

(** ** The dict of sorted buckets *)

Lemma dict_set_keys {V : Type} (g : string -> V) (k : string) (ks : list string) :
  dict_set k (g k) (map (fun op => (op, g op)) ks)
  = map (fun op => (op, g op)) (add_key k ks).
Proof.
  unfold add_key. induction ks as [|k' ks IH]; simpl; [reflexivity|].
  destruct (String.eqb k k') eqn:E; simpl.
  - apply String.eqb_eq in E. now subst k'.
  - rewrite IH. destruct (str_in k ks); reflexivity.
Qed.

Lemma fold_dict_set_keys {V : Type} (g : string -> V) (l : list (string * pyfloat)) :
  forall ks,
  fold_left (fun d ov => dict_set (fst ov) (g (fst ov)) d) l
            (map (fun op => (op, g op)) ks)
  = map (fun op => (op, g op))
        (fold_left (fun ks k => add_key k ks) (map fst l) ks).
Proof.
  induction l as [|ov l IH]; intros ks; simpl; [reflexivity|].
  rewrite dict_set_keys. apply IH.
Qed.

(** [versions_by_op] has one item per operator, in the order of first
    occurrence, holding the sorted bucket of that operator. *)
Lemma versions_by_op_keys (versions : list (string * pyfloat)) :
  versions_by_op versions
  = map (fun op => (op, bucket op versions)) (first_keys (map fst versions)).
Proof.
  exact (fold_dict_set_keys (fun op => bucket op versions) versions []).
Qed.

Lemma str_in_In (k : string) (ks : list string) : str_in k ks = true <-> In k ks.
Proof.
  unfold str_in. rewrite existsb_exists. split.
  - intros (x & Hx & E). apply String.eqb_eq in E. now subst x.
  - intros H. exists k. split; [assumption | apply String.eqb_refl].
Qed.

Lemma add_key_In (k k0 : string) (ks : list string) :
  In k (add_key k0 ks) <-> k = k0 \/ In k ks.
Proof.
  unfold add_key. destruct (str_in k0 ks) eqn:E.
  - apply str_in_In in E. split; [tauto | intros [->|H]; assumption].
  - rewrite in_app_iff. simpl. split; [intros [H|[H|[]]]; auto | intros [H|H]; auto].
Qed.

Lemma add_key_NoDup (k0 : string) (ks : list string) :
  NoDup ks -> NoDup (add_key k0 ks).
Proof.
  intros H. unfold add_key. destruct (str_in k0 ks) eqn:E; [assumption|].
  apply NoDup_app; [assumption | repeat constructor; intros [] |].
  intros x Hx [<-|[]]. apply str_in_In in Hx. congruence.
Qed.

Lemma fold_add_key (l ks : list string) :
  (forall k, In k (fold_left (fun ks k => add_key k ks) l ks) <-> In k ks \/ In k l)
  /\ (NoDup ks -> NoDup (fold_left (fun ks k => add_key k ks) l ks)).
Proof.
  revert ks. induction l as [|x l IH]; intros ks; simpl.
  - split; [intros k; tauto | auto].
  - destruct (IH (add_key x ks)) as [IHin IHnd]. split.
    + intros k. rewrite IHin, add_key_In. split; intros H; intuition auto.
    + intros H. apply IHnd, add_key_NoDup, H.
Qed.

Lemma first_keys_In (l : list string) (k : string) : In k (first_keys l) <-> In k l.
Proof.
  unfold first_keys. rewrite (proj1 (fold_add_key l [])). simpl. tauto.
Qed.

Lemma first_keys_NoDup (l : list string) : NoDup (first_keys l).
Proof. apply (proj2 (fold_add_key l [])). constructor. Qed.

Lemma insert_sorted_In (x y : pyfloat) (l : list pyfloat) :
  In y (insert_sorted x l) <-> y = x \/ In y l.
Proof.
  induction l as [|z l IH]; simpl; [intuition auto|].
  destruct (float_lt z x); simpl; [rewrite IH|]; intuition auto.
Qed.

Lemma sorted_In (l : list pyfloat) (y : pyfloat) : In y (sorted l) <-> In y l.
Proof.
  induction l as [|x l IH]; simpl; [tauto|].
  rewrite insert_sorted_In, IH. intuition auto.
Qed.





Lemma bucket_In (op : string) (versions : list (string * pyfloat)) (v : pyfloat) :
  In v (bucket op versions) <-> In (op, v) versions.
Proof.
  unfold bucket. rewrite sorted_In, in_map_iff. split.
  - intros ([o w] & E & Hin). simpl in E. subst w.
    apply filter_In in Hin as [Hin Ho]. simpl in Ho.
    apply String.eqb_eq in Ho. now subst o.
  - intros H. exists (op, v). split; [reflexivity|].
    apply filter_In. split; [assumption | apply String.eqb_refl].
Qed.

(** The bucket of an operator that occurs is not empty. *)
Lemma bucket_not_nil (op : string) (versions : list (string * pyfloat)) :
  In op (map fst versions) -> bucket op versions <> [].
Proof.
  intros H. apply in_map_iff in H as ([o v] & Ho & Hin). simpl in Ho. subst o.
  assert (Hv : In v (bucket op versions)).
  { unfold bucket. apply sorted_In, in_map_iff. exists (op, v). split; [reflexivity|].
    apply filter_In. split; [assumption | apply String.eqb_refl]. }
  intros E. rewrite E in Hv. destruct Hv.
Qed.

Lemma versions_by_op_item (versions : list (string * pyfloat)) (op : string)
  (b : list pyfloat) :
  In (op, b) (versions_by_op versions) ->
  In op (map fst versions) /\ b = bucket op versions.
Proof.
  rewrite versions_by_op_keys. intros H.
  apply in_map_iff in H as (k & E & Hk). inversion E; subst.
  split; [now apply first_keys_In | reflexivity].
Qed.

Lemma versions_by_op_not_nil (versions : list (string * pyfloat)) :
  versions <> [] -> versions_by_op versions <> [].
Proof.
  intros Hne. destruct versions as [|[o v] rest]; [congruence|].
  rewrite versions_by_op_keys.
  assert (Hin : In o (first_keys (map fst ((o, v) :: rest))))
    by (apply first_keys_In; now left).
  intros E. apply map_eq_nil in E. rewrite E in Hin. destruct Hin.
Qed.

Lemma first_total {A : Type} (l : list A) : l <> [] -> exists x, first l = Ok x.
Proof. destruct l; [congruence | simpl; eauto]. Qed.

Lemma final_total {A : Type} (l : list A) : l <> [] -> exists x, final l = Ok x.
Proof.
  intros H. unfold final. destruct (rev l) eqn:E; [|eauto].
  apply (f_equal (@rev A)) in E. rewrite rev_involutive in E. simpl in E. congruence.
Qed.

(** ** The loop that fills [op_range] *)

Lemma global_ops_alowed :
  global_ops "alowed_ops" = Raise (NameError "name 'alowed_ops' is not defined").
Proof. reflexivity. Qed.

(** A turn that succeeds stores a range whose lower end is at most its upper
    end. *)
Lemma op_range_step_Ok (pkg op : string) (versions : list pyfloat)
  (d d' : dict (num * num)) :
  op_range_step pkg op versions d = Ok d' ->
  exists r, d' = dict_set op r d /\ num_le (fst r) (snd r).
Proof.
  unfold op_range_step.
  destruct (str_in op ["<="; "<"]).
  { intros H. apply bind_Ok in H as (v & _ & H). inversion H.
    exists (Int 0, Float v). split; [reflexivity | apply float_nonneg]. }
  destruct (str_in op [">="; ">"]).
  { intros H. apply bind_Ok in H as (v & _ & H). inversion H.
    exists (Float v, Inf). split; [reflexivity | exact I]. }
  destruct (String.eqb op "==" && (1 <? List.length (distinct versions))%nat);
    [discriminate|].
  destruct (String.eqb op "==").
  { intros H. apply bind_Ok in H as (v & _ & H). inversion H.
    exists (Float v, Float v). split; [reflexivity | apply num_le_refl]. }
  rewrite global_ops_alowed. discriminate.
Qed.

(** A turn raises [DependencyConflictError] only on an [==] bucket with two
    distinct versions or more, and then names the package and the bucket. *)
Lemma op_range_step_conflict (pkg op : string) (versions : list pyfloat)
  (d : dict (num * num)) (msg : string) :
  op_range_step pkg op versions d = Raise (DependencyConflictError msg) ->
  op = "==" /\ (1 < List.length (distinct versions))%nat.
Proof.
  unfold op_range_step.
  destruct (str_in op ["<="; "<"]).
  { destruct versions; simpl; discriminate. }
  destruct (str_in op [">="; ">"]).
  { unfold final. destruct (rev versions); simpl; discriminate. }
  destruct (String.eqb op "==") eqn:E; simpl.
  - destruct (1 <? List.length (distinct versions))%nat eqn:L.
    + intros _. split; [now apply String.eqb_eq | now apply Nat.ltb_lt].
    + destruct versions; simpl; discriminate.
  - discriminate.
Qed.


(** A turn on a known operator succeeds, unless it is the conflicting [==]
    bucket. *)
Lemma op_range_step_known (pkg op : string) (versions : list pyfloat)
  (d : dict (num * num)) :
  In op allowed_ops -> versions <> [] ->
  (op = "==" -> (List.length (distinct versions) <= 1)%nat) ->
  exists d', op_range_step pkg op versions d = Ok d'.
Proof.
  intros Hop Hne Heq.
  destruct (first_total _ Hne) as (v0 & Hv0).
  destruct (final_total _ Hne) as (v1 & Hv1).
  unfold allowed_ops in Hop. simpl in Hop.
  unfold op_range_step. rewrite Hv0, Hv1.
  destruct Hop as [<-|[<-|[<-|[<-|[<-|[]]]]]]; try (simpl; eauto; fail).
  specialize (Heq eq_refl). apply Nat.ltb_ge in Heq. rewrite Heq. simpl. eauto.
Qed.

Lemma op_range_loop_Ok (pkg : string) (items : dict (list pyfloat)) :
  forall acc d, op_range_loop pkg items acc = Ok d -> well_ranged acc ->
  well_ranged d /\ (acc <> [] \/ items <> [] -> d <> []).
Proof.
  induction items as [|[op versions] items IH]; intros acc d H Hacc; simpl in H.
  - inversion H; subst d. split; [assumption | intros [?|?]; congruence].
  - apply bind_Ok in H as (acc' & Hstep & H).
    apply op_range_step_Ok in Hstep as (r & -> & Hr).
    destruct (IH _ _ H) as [Hw Hne].
    + intros k r' Hin. apply dict_set_In in Hin as [E|Hin]; [|now apply (Hacc k)].
      inversion E; subst. exact Hr.
    + split; [assumption|]. intros _. apply Hne. left. apply dict_set_not_nil.
Qed.

Lemma op_range_loop_conflict (pkg : string) (items : dict (list pyfloat)) :
  forall acc msg,
  op_range_loop pkg items acc = Raise (DependencyConflictError msg) ->
  exists versions,
    In ("==", versions) items /\ (1 < List.length (distinct versions))%nat.
Proof.
  induction items as [|[op versions] items IH]; intros acc msg H; simpl in H;
    [discriminate|].
  destruct (op_range_step pkg op versions acc) as [acc'|e] eqn:Hstep; simpl in H.
  - destruct (IH _ _ H) as (vs & Hin & Hlt). exists vs. split; [now right | assumption].
  - inversion H; subst e.
    apply op_range_step_conflict in Hstep as [-> Hlt].
    exists versions. split; [now left | assumption].
Qed.


Lemma op_range_loop_total (pkg : string) (items : dict (list pyfloat)) :
  (forall item, In item items ->
     forall acc, exists acc', op_range_step pkg (fst item) (snd item) acc = Ok acc') ->
  forall acc, exists d, op_range_loop pkg items acc = Ok d.
Proof.
  induction items as [|[o v] items IH]; intros H acc; simpl; [eauto|].
  destruct (H (o, v) (or_introl eq_refl) acc) as (acc' & Hacc). simpl in Hacc.
  rewrite Hacc. simpl. apply IH. intros item Hi. apply H. now right.
Qed.

(** The floor never exceeds the roof: the test [roof < floor] is false on
    every [op_range] the loop can build, and [resolve] returns clauses. *)
Lemma resolve_no_conflict (pkg : string) (versions : list pyfloat)
  (d : dict (num * num)) :
  well_ranged d -> d <> [] ->
  exists roof floor,
    py_max (map snd (dict_values d)) = Ok roof
    /\ py_min (map fst (dict_values d)) = Ok floor
    /\ num_lt roof floor = false
    /\ exists clauses, resolve pkg versions d = Ok clauses.
Proof.
  intros Hw Hne.
  assert (Hb : exists roof floor,
            py_max (map snd (dict_values d)) = Ok roof
            /\ py_min (map fst (dict_values d)) = Ok floor
            /\ num_lt roof floor = false).
  { destruct d as [|[k [lo hi]] d]; [congruence|].
    cbn [dict_values map py_max py_min fst snd].
    eexists. eexists. split; [reflexivity|]. split; [reflexivity|].
    apply num_lt_false. apply (num_le_trans _ lo); [apply fold_min_le|].
    apply (num_le_trans _ hi); [|apply fold_max_ge].
    apply (Hw k (lo, hi)). now left. }
  destruct Hb as (roof & floor & Hmax & Hmin & Hle).
  exists roof, floor. repeat split; try assumption.
  unfold resolve. rewrite Hmax, Hmin. cbn [bind]. rewrite Hle.
  destruct (num_eq roof Inf).
  { destruct (dict_get ">=" d); [destruct (py_eq _ _)|]; eauto. }
  destruct (num_eq floor (Int 0)); [|eauto].
  destruct (dict_get "<=" d); [destruct (py_eq _ _)|]; eauto.
Qed.

Lemma upper_not_lower (op : string) : upper_op op = true -> lower_op op = false.
Proof.
  unfold upper_op. intros H. apply str_in_In in H.
  destruct H as [<-|[<-|[]]]; reflexivity.
Qed.

(** The range a successful turn stores, by kind of operator. *)
Lemma op_range_step_kind (pkg op : string) (versions : list pyfloat)
  (d d' : dict (num * num)) :
  op_range_step pkg op versions d = Ok d' ->
  exists r, d' = dict_set op r d /\ range_kind op r.
Proof.
  unfold op_range_step, range_kind.
  destruct (str_in op ["<="; "<"]) eqn:U.
  { intros H. apply bind_Ok in H as (v & _ & H). inversion H.
    exists (Int 0, Float v). split; [reflexivity|]. cbn [fst snd].
    pose proof (upper_not_lower op U) as L. rewrite L.
    repeat split; try discriminate; eauto using num_le_refl. }
  destruct (str_in op [">="; ">"]) eqn:L.
  { intros H. apply bind_Ok in H as (v & _ & H). inversion H.
    exists (Float v, Inf). split; [reflexivity|]. cbn [fst snd].
    unfold upper_op, lower_op. rewrite U, L.
    repeat split; try discriminate; eauto using float_nonneg. }
  destruct (String.eqb op "==" && (1 <? List.length (distinct versions))%nat);
    [discriminate|].
  destruct (String.eqb op "==").
  { intros H. apply bind_Ok in H as (v & _ & H). inversion H.
    exists (Float v, Float v). split; [reflexivity|]. cbn [fst snd].
    unfold upper_op, lower_op. rewrite U, L.
    repeat split; try discriminate; eauto using float_nonneg. }
  rewrite global_ops_alowed. discriminate.
Qed.

Lemma dict_set_key_In {V : Type} (k k0 : string) (v : V) (d : dict V) :
  In k (map fst (dict_set k0 v d)) <-> k = k0 \/ In k (map fst d).
Proof.
  induction d as [|[k' v'] d IH]; simpl.
  - intuition auto.
  - destruct (String.eqb k0 k') eqn:E; simpl.
    + apply String.eqb_eq in E. subst k'. intuition auto.
    + rewrite IH. intuition auto.
Qed.

(** When the loop ends, the keys of [op_range] are those it started with
    and the operators visited, and every range is of the kind of its key. *)
Lemma op_range_loop_kind (pkg : string) (items : dict (list pyfloat)) :
  forall acc d, op_range_loop pkg items acc = Ok d -> well_kinded acc ->
  well_kinded d
  /\ forall k, In k (map fst d) <-> In k (map fst items) \/ In k (map fst acc).
Proof.
  induction items as [|[op versions] items IH]; intros acc d H Hacc; simpl in H.
  - inversion H; subst d. split; [assumption|]. intros k. simpl. tauto.
  - apply bind_Ok in H as (acc' & Hstep & H).
    apply op_range_step_kind in Hstep as (r & -> & Hr).
    destruct (IH _ _ H) as [Hw Hk].
    + intros k r' Hin. apply dict_set_In in Hin as [E|Hin]; [|now apply (Hacc k)].
      inversion E; subst. exact Hr.
    + split; [assumption|]. intros k. rewrite Hk, dict_set_key_In. simpl.
      intuition auto.
Qed.

Lemma key_In_item {V : Type} (k : string) (d : dict V) :
  In k (map fst d) -> exists v, In (k, v) d.
Proof.
  intros H. apply in_map_iff in H as ([k' v] & E & Hin). simpl in E. subst k'. eauto.
Qed.

(** ** Packages with two versioned specs or more *)

Lemma fuser_pkg_many (pkg : string) (reqs_list : list (list RawEntry))
  (versions : list (string * pyfloat)) :
  versions_of pkg reqs_list = Ok versions -> (2 <= List.length versions)%nat ->
  fuser_pkg pkg reqs_list
  = (op_range <- op_range_loop pkg (versions_by_op versions) [] ;;
     resolve pkg (last_bucket (versions_by_op versions)) op_range).
Proof.
  intros Hv Hlen. unfold fuser_pkg. rewrite Hv. cbn [bind].
  destruct versions as [|[o1 v1] [|[o2 v2] rest]]; simpl in Hlen; try lia.
  reflexivity.
Qed.






(** C10. For a package with two versioned specs or more: whenever the loop
    has built [op_range], the floor (the least lower end) is at most the roof
    (the greatest upper end), so the test [roof < floor] is false;
    [DependencyConflictError] is raised only when the [==] bucket holds two
    distinct versions or more; and with operators among the five known ones
    and at most one distinct [==] version the package is resolved. *)
Theorem fuser_floor_le_roof (pkg : string) (reqs_list : list (list RawEntry))
  (versions : list (string * pyfloat)) :
  versions_of pkg reqs_list = Ok versions -> (2 <= List.length versions)%nat ->
  (forall op_range,
     op_range_loop pkg (versions_by_op versions) [] = Ok op_range ->
     exists roof floor,
       py_max (map snd (dict_values op_range)) = Ok roof
       /\ py_min (map fst (dict_values op_range)) = Ok floor
       /\ num_lt roof floor = false)
  /\ (forall msg,
        fuser_pkg pkg reqs_list = Raise (DependencyConflictError msg) ->
        (1 < List.length (distinct (bucket "==" versions)))%nat)
  /\ ((forall op, In op (map fst versions) -> In op allowed_ops) ->
      (List.length (distinct (bucket "==" versions)) <= 1)%nat ->
      exists op_range clauses,
        op_range_loop pkg (versions_by_op versions) [] = Ok op_range
        /\ fuser_pkg pkg reqs_list = Ok clauses).
Proof.
  intros Hv Hlen.
  assert (Hne : versions_by_op versions <> []).
  { apply versions_by_op_not_nil. destruct versions; simpl in Hlen; [lia | discriminate]. }
  assert (Hbuilt : forall op_range,
            op_range_loop pkg (versions_by_op versions) [] = Ok op_range ->
            well_ranged op_range /\ op_range <> []).
  { intros d Hd. destruct (op_range_loop_Ok _ _ _ _ Hd) as [Hw Hn].
    - intros k r [].
    - split; [assumption | apply Hn; now right]. }
  rewrite (fuser_pkg_many _ _ _ Hv Hlen).
  split; [|split].
  - intros d Hd. destruct (Hbuilt _ Hd) as [Hw Hn].
    destruct (resolve_no_conflict pkg [] d Hw Hn) as (roof & floor & H1 & H2 & H3 & _).
    eauto.
  - intros msg H.
    destruct (op_range_loop pkg (versions_by_op versions) []) as [d|e] eqn:Hd;
      cbn [bind] in H.
    + destruct (Hbuilt _ eq_refl) as [Hw Hn].
      destruct (resolve_no_conflict pkg (last_bucket (versions_by_op versions)) d Hw Hn)
        as (_ & _ & _ & _ & _ & clauses & Hc).
      congruence.
    + inversion H; subst e.
      apply op_range_loop_conflict in Hd as (vs & Hin & Hlt).
      apply versions_by_op_item in Hin as [_ ->]. exact Hlt.
  - intros Hops Hone.
    destruct (op_range_loop_total pkg (versions_by_op versions)) with (acc := @nil (string * (num * num)))
      as (d & Hd).
    { intros [op b] Hitem acc. cbn [fst snd].
      apply versions_by_op_item in Hitem as [Hop ->].
      apply op_range_step_known.
      - now apply Hops.
      - now apply bucket_not_nil.
      - now intros ->. }
    rewrite Hd. cbn [bind]. destruct (Hbuilt _ Hd) as [Hw Hn].
    destruct (resolve_no_conflict pkg (last_bucket (versions_by_op versions)) d Hw Hn)
      as (_ & _ & _ & _ & _ & clauses & Hc).
    eauto.
Qed.

Lemma fuser_floor_le_roof_witness :
  versions_of "pkgA" disjoint_bounds = Ok disjoint_versions
  /\ (2 <= List.length disjoint_versions)%nat
  /\ (forall op_range,
        op_range_loop "pkgA" (versions_by_op disjoint_versions) [] = Ok op_range ->
        exists roof floor,
          py_max (map snd (dict_values op_range)) = Ok roof
          /\ py_min (map fst (dict_values op_range)) = Ok floor
          /\ num_lt roof floor = false)
  /\ (forall msg,
        fuser_pkg "pkgA" disjoint_bounds = Raise (DependencyConflictError msg) ->
        (1 < List.length (distinct (bucket "==" disjoint_versions)))%nat)
  /\ ((forall op, In op (map fst disjoint_versions) -> In op allowed_ops) ->
      (List.length (distinct (bucket "==" disjoint_versions)) <= 1)%nat ->
      exists op_range clauses,
        op_range_loop "pkgA" (versions_by_op disjoint_versions) [] = Ok op_range
        /\ fuser_pkg "pkgA" disjoint_bounds = Ok clauses).
Proof.
  assert (H1 : versions_of "pkgA" disjoint_bounds = Ok disjoint_versions)
    by reflexivity.
  assert (H2 : (2 <= List.length disjoint_versions)%nat) by (simpl; lia).
  split; [exact H1|]. split; [exact H2|].
  exact (fuser_floor_le_roof "pkgA" disjoint_bounds disjoint_versions H1 H2).
Defined.

(** What the fuser does with bounds, in general.  With a lower bound among
    two versioned specs or more, the resolved constraint is the single clause
    [>floor], never [>=] and never a closed range; if an upper bound is
    present as well, that floor is zero. *)
Lemma fuser_pkg_lower_bound (pkg : string) (reqs_list : list (list RawEntry))
  (versions : list (string * pyfloat)) (cs : list (string * value)) :
  versions_of pkg reqs_list = Ok versions -> (2 <= List.length versions)%nat ->
  fuser_pkg pkg reqs_list = Ok cs ->
  (exists op, In op (map fst versions) /\ lower_op op = true) ->
  exists floor,
    cs = [(">", VNum floor)]
    /\ ((exists op, In op (map fst versions) /\ upper_op op = true) ->
        num_eq floor (Int 0) = true).
Proof.
  intros Hv Hlen Hcs (lop & Hlop & Hlow).
  rewrite (fuser_pkg_many _ _ _ Hv Hlen) in Hcs.
  apply bind_Ok in Hcs as (d & Hd & Hres).
  destruct (op_range_loop_kind _ _ _ _ Hd) as [Hw Hk]; [intros k r []|].
  assert (Hkey : forall op, In op (map fst versions) -> exists r, In (op, r) d).
  { intros op Hop. apply key_In_item, Hk. left.
    rewrite versions_by_op_keys, map_map. simpl. rewrite map_id.
    now apply first_keys_In. }
  unfold resolve in Hres.
  apply bind_Ok in Hres as (roof & Hmax & Hres).
  apply bind_Ok in Hres as (floor & Hmin & Hres).
  apply py_max_spec in Hmax as [_ Hmax]. apply py_min_spec in Hmin as [Hfin Hmin].
  destruct (num_lt roof floor); [discriminate|].
  assert (Hinf : num_eq roof Inf = true).
  { destruct (Hkey lop Hlop) as (r & Hr).
    destruct (Hw _ _ Hr) as (_ & _ & HI & _). specialize (HI Hlow).
    apply num_le_Inf, Hmax. rewrite <- HI.
    apply (in_map snd), (in_map snd) in Hr. exact Hr. }
  rewrite Hinf in Hres. exists floor. split.
  - destruct (dict_get ">=" d); inversion Hres; reflexivity.
  - intros (uop & Huop & Hup).
    destruct (Hkey uop Huop) as (r & Hr).
    destruct (Hw _ _ Hr) as (_ & HZ & _). specialize (HZ Hup).
    apply num_le_antisym.
    + apply Hmin. rewrite <- HZ.
      apply (in_map snd), (in_map fst) in Hr. exact Hr.
    + unfold dict_values in Hfin. rewrite map_map in Hfin.
      apply in_map_iff in Hfin as ([k r'] & <- & Hin).
      exact (proj1 (Hw _ _ Hin)).
Qed.

(** With upper bounds and no lower bound, the resolved constraint is the
    single clause [<roof], never [<=]. *)
Lemma fuser_pkg_upper_only (pkg : string) (reqs_list : list (list RawEntry))
  (versions : list (string * pyfloat)) (cs : list (string * value)) :
  versions_of pkg reqs_list = Ok versions -> (2 <= List.length versions)%nat ->
  fuser_pkg pkg reqs_list = Ok cs ->
  (forall op, In op (map fst versions) -> lower_op op = false) ->
  (exists op, In op (map fst versions) /\ upper_op op = true) ->
  exists roof, cs = [("<", VNum (Float roof))].
Proof.
  intros Hv Hlen Hcs Hnolow (uop & Huop & Hup).
  rewrite (fuser_pkg_many _ _ _ Hv Hlen) in Hcs.
  apply bind_Ok in Hcs as (d & Hd & Hres).
  destruct (op_range_loop_kind _ _ _ _ Hd) as [Hw Hk]; [intros k r []|].
  assert (Hkeys : forall op, In op (map fst d) <-> In op (map fst versions)).
  { intros op. rewrite Hk, versions_by_op_keys, map_map. simpl. rewrite map_id.
    rewrite first_keys_In. tauto. }
  unfold resolve in Hres.
  apply bind_Ok in Hres as (roof & Hmax & Hres).
  apply bind_Ok in Hres as (floor & Hmin & Hres).
  apply py_max_spec in Hmax as [Hrin _]. apply py_min_spec in Hmin as [Hfin Hmin].
  destruct (num_lt roof floor); [discriminate|].
  assert (Hroof : exists f, roof = Float f).
  { unfold dict_values in Hrin. rewrite map_map in Hrin.
    apply in_map_iff in Hrin as ([k r] & <- & Hin).
    destruct (Hw _ _ Hin) as (_ & _ & _ & HF). apply HF, Hnolow, Hkeys.
    apply (in_map fst) in Hin. exact Hin. }
  destruct Hroof as (f & ->). exists f.
  change (num_eq (Float f) Inf) with false in Hres.
  assert (Hzero : num_eq floor (Int 0) = true).
  { apply Hkeys, key_In_item in Huop as (r & Hr).
    destruct (Hw _ _ Hr) as (_ & HZ & _). specialize (HZ Hup).
    apply num_le_antisym.
    - apply Hmin. rewrite <- HZ.
      apply (in_map snd), (in_map fst) in Hr. exact Hr.
    - unfold dict_values in Hfin. rewrite map_map in Hfin.
      apply in_map_iff in Hfin as ([k r'] & <- & Hin).
      exact (proj1 (Hw _ _ Hin)). }
  rewrite Hzero in Hres.
  destruct (dict_get "<=" d); inversion Hres; reflexivity.
Qed.

(** ** The fuser on the examples of the specification *)

(** C1. The code does not produce the closed range: for [pkgA>=2.2] and
    [pkgA<=3.0] the roof is the maximum of the upper ends ([inf]) and the
    floor the minimum of the lower ends (the int [0]), and [floor] is compared
    with the whole range list of [>=], so the result is [pkgA>0].  The
    docstring's own [pytorch] example comes out the same way.  ([pkgA] is
    the only package, so [["pkgA"]] is the only iteration order; the general
    fact is [fuser_pkg_lower_bound].) *)
Theorem fuser_lower_and_upper_bound :
  fuser ["pkgA"] [[("pkgA", ">=", "2.2")]; [("pkgA", "<=", "3.0")]]
    = Ok [("pkgA", [(">", VNum (Int 0))])]
  /\ main ["pkgA"] ["pkgA>=2.2"; "pkgA<=3.0"] = Ok "pkgA>0"
  /\ fuser_pkg "pytorch" docstring_example = Ok [(">", VNum (Int 0))].
Proof. repeat split; vm_compute; reflexivity. Qed.

(** C2. [pkgA<2.0] with [pkgA>3.0] raises nothing: the roof is [inf], the
    floor is [0], the test [roof < floor] is false and the result is
    [pkgA>0]. *)
Theorem fuser_disjoint_bounds_no_conflict :
  fuser ["pkgA"] [[("pkgA", "<", "2.0")]; [("pkgA", ">", "3.0")]]
    = Ok [("pkgA", [(">", VNum (Int 0))])]
  /\ main ["pkgA"] ["pkgA<2.0"; "pkgA>3.0"] = Ok "pkgA>0".
Proof. split; vm_compute; reflexivity. Qed.

(** C5. With upper bounds only, the result is the largest bound with the
    exclusive operator, and with lower bounds only the smallest bound with
    the exclusive operator: [pkgA<=5.0] with [pkgA<6.0] gives [pkgA<6.0], and
    [pkgA>=1.0] with [pkgA>0.5] gives [pkgA>0.5].  (The inclusive operator is
    never chosen: [fuser_pkg_lower_bound], [fuser_pkg_upper_only].) *)
Theorem fuser_one_sided_bounds :
  main ["pkgA"] ["pkgA<=5.0"; "pkgA<6.0"] = Ok "pkgA<6.0"
  /\ main ["pkgA"] ["pkgA>=1.0"; "pkgA>0.5"] = Ok "pkgA>0.5"
  /\ fuser ["pkgA"] [[("pkgA", "<=", "5.0")]; [("pkgA", "<", "6.0")]]
      = Ok [("pkgA", [("<", VNum (Float (mkfloat 6 0)))])]
  /\ fuser ["pkgA"] [[("pkgA", ">=", "1.0")]; [("pkgA", ">", "0.5")]]
      = Ok [("pkgA", [(">", VNum (Float (mkfloat 5 1)))])].
Proof. repeat split; vm_compute; reflexivity. Qed.

(** C3. The branch for an operator outside the five known ones builds its
    message from the name [alowed_ops], which the module does not define:
    the exception that leaves [fuser] is [NameError], not
    [UnsupportedOperatorError].  This holds for [!=] handed to [fuser]
    and for [=>] read from text. *)
Theorem fuser_unknown_operator_name_error :
  fuser ["pkgA"] [[("pkgA", "!=", "1.0")]; [("pkgA", "!=", "2.0")]]
    = Raise (NameError "name 'alowed_ops' is not defined")
  /\ main ["pkgA"] ["pkgA=>1.0"; "pkgA=>2.0"]
    = Raise (NameError "name 'alowed_ops' is not defined").
Proof. split; vm_compute; reflexivity. Qed.

(** ** Lines, character classes and the pattern [rgx] *)

Lemma prefix_cons (a : ascii) (p s : string) :
  String.prefix (String a p) s = true ->
  exists s', s = String a s' /\ String.prefix p s' = true.
Proof.
  destruct s as [|b s']; simpl; [discriminate|].
  destruct (ascii_dec a b) as [->|]; [eauto | discriminate].
Qed.

Lemma passthrough_shape (r : string) :
  passthrough r = true ->
  (exists s, r = String "-" (String "-" s))
  \/ (exists s, r = String "g" (String "i" (String "t" (String "+" s)))).
Proof.
  unfold passthrough, startswith. intros H. apply orb_true_iff in H as [H|H].
  - left. apply prefix_cons in H as (s1 & -> & H).
    apply prefix_cons in H as (s2 & -> & _). eauto.
  - right. apply prefix_cons in H as (s1 & -> & H).
    apply prefix_cons in H as (s2 & -> & H).
    apply prefix_cons in H as (s3 & -> & H).
    apply prefix_cons in H as (s4 & -> & _). eauto.
Qed.

Lemma passthrough_kept (r : string) : passthrough r = true -> kept_line r = true.
Proof.
  intros H. destruct (passthrough_shape r H) as [(s & ->)|(s & ->)]; reflexivity.
Qed.

Lemma passthrough_not_alpha (r : string) :
  passthrough r = true -> string_forall is_alpha r = false.
Proof.
  intros H. destruct (passthrough_shape r H) as [(s & ->)|(s & ->)]; reflexivity.
Qed.

Lemma string_forall_app (p : ascii -> bool) (a b : string) :
  string_forall p (a ++ b) = string_forall p a && string_forall p b.
Proof.
  induction a as [|c a IH]; simpl; [reflexivity|].
  now rewrite IH, andb_assoc.
Qed.

Lemma string_forall_impl (p q : ascii -> bool) (s : string) :
  (forall c, p c = true -> q c = true) ->
  string_forall p s = true -> string_forall q s = true.
Proof.
  intros Hpq. induction s as [|c s IH]; simpl; [reflexivity|].
  intros H. apply andb_true_iff in H as [Hc Hs].
  now rewrite (Hpq _ Hc), (IH Hs).
Qed.

Lemma span_forall (p : ascii -> bool) (s a b : string) :
  span p s = (a, b) -> string_forall p a = true.
Proof.
  revert a b. induction s as [|c s IH]; intros a b H; simpl in H.
  - inversion H. reflexivity.
  - destruct (p c) eqn:E.
    + destruct (span p s) as [a' b'] eqn:Es. inversion H; subst. simpl.
      rewrite E. simpl. exact (IH _ _ eq_refl).
    + inversion H. reflexivity.
Qed.

Lemma span_app_stop (p : ascii -> bool) (a b : string) :
  string_forall p a = true ->
  match b with EmptyString => True | String c _ => p c = false end ->
  span p (a ++ b) = (a, b).
Proof.
  intros Ha Hb. induction a as [|c a IH]; simpl.
  - destruct b as [|c b]; simpl; [reflexivity | now rewrite Hb].
  - simpl in Ha. apply andb_true_iff in Ha as [Hc Ha].
    now rewrite Hc, (IH Ha).
Qed.

Lemma span_all (p : ascii -> bool) (a : string) :
  string_forall p a = true -> span p a = (a, "").
Proof.
  intros Ha. rewrite <- (append_nil_r a) at 1. now apply span_app_stop.
Qed.

Lemma stop_char (p q : ascii -> bool) (b : string) :
  string_forall q b = true -> (forall c, q c = true -> p c = false) ->
  match b with EmptyString => True | String c _ => p c = false end.
Proof.
  destruct b as [|c b]; simpl; [trivial|].
  intros H Hqp. apply andb_true_iff in H as [Hc _]. now apply Hqp.
Qed.

(** What [rgx] captures: a non-empty run of letters, a run of operator
    characters, a run of digits and dots. *)
Lemma rgx_groups (r name op ver : string) :
  rgx r = Some (name, op, ver) ->
  name <> "" /\ string_forall is_alpha name = true
  /\ string_forall is_opchar op = true /\ string_forall is_verchar ver = true.
Proof.
  induction r as [|c r IH]; simpl; [discriminate|].
  destruct (is_alpha c) eqn:E; [|exact IH].
  destruct (span is_alpha r) as [a r1] eqn:E1.
  destruct (span is_opchar r1) as [o r2] eqn:E2.
  destruct (span is_verchar r2) as [v r3] eqn:E3.
  intros H. inversion H; subst. repeat split.
  - discriminate.
  - simpl. rewrite E. simpl. exact (span_forall _ _ _ _ E1).
  - exact (span_forall _ _ _ _ E2).
  - exact (span_forall _ _ _ _ E3).
Qed.

(** A parsed entry is a pass-through line with empty operator and version, or
    has a name made of letters. *)
Lemma parse_line_entry (r : string) (e : RawEntry) :
  parse_line r = Ok e ->
  (passthrough r = true /\ e = (r, "", ""))
  \/ (passthrough r = false /\ rgx r = Some e).
Proof.
  unfold parse_line. destruct (passthrough r); intros H.
  - left. inversion H. auto.
  - right. destruct (rgx r); inversion H. auto.
Qed.

Lemma split_not_nil (sep : ascii) (s : string) : split sep s <> [].
Proof.
  induction s as [|c s IH]; simpl; [discriminate|].
  destruct (Ascii.eqb c sep); [discriminate|].
  destruct (split sep s); [contradiction | discriminate].
Qed.

Lemma split_app_sep (sep : ascii) (a b : string) :
  split sep (a ++ String sep b) = (split sep a ++ split sep b)%list.
Proof.
  induction a as [|c a IH]; simpl.
  - now rewrite Ascii.eqb_refl.
  - destruct (Ascii.eqb c sep); [now rewrite IH|].
    rewrite IH. pose proof (split_not_nil sep a) as Hne.
    destruct (split sep a); [contradiction | reflexivity].
Qed.

Lemma split_line (r : string) :
  string_forall not_newline r = true -> split newline r = [r].
Proof.
  induction r as [|c r IH]; simpl; [reflexivity|].
  intros H. apply andb_true_iff in H as [Hc Hr]. unfold not_newline in Hc.
  apply negb_true_iff in Hc. rewrite Hc, (IH Hr). reflexivity.
Qed.

Lemma split_lines_no_newline (s r : string) :
  In r (split newline s) -> string_forall not_newline r = true.
Proof.
  revert r. induction s as [|c s IH]; simpl; intros r H.
  - destruct H as [<-|[]]. reflexivity.
  - destruct (Ascii.eqb c newline) eqn:E.
    + destruct H as [<-|H]; [reflexivity | now apply IH].
    + pose proof (split_not_nil newline s) as Hne.
      destruct (split newline s) as [|h t]; [contradiction|].
      destruct H as [<-|H].
      * simpl. unfold not_newline at 1. rewrite E. simpl. apply IH. now left.
      * apply IH. now right.
Qed.

(** A line without a newline that is joined into a text is one of the lines
    of that text. *)
Lemma join_in_split (lines : list string) (r : string) :
  In r lines -> string_forall not_newline r = true ->
  In r (split newline (join (String newline "") lines)).
Proof.
  intros Hin Hr. induction lines as [|x rest IH]; [destruct Hin|].
  unfold join in *. simpl. destruct rest as [|y rest'].
  - destruct Hin as [->|[]]. rewrite (split_line _ Hr). now left.
  - change (x ++ String newline "" ++ String.concat (String newline "") (y :: rest'))
      with (x ++ String newline (String.concat (String newline "") (y :: rest'))).
    rewrite split_app_sep. apply in_or_app.
    destruct Hin as [->|Hin].
    + left. rewrite (split_line _ Hr). now left.
    + right. now apply IH.
Qed.

Ltac ascii_cases c :=
  destruct c as [[] [] [] [] [] [] [] []];
  try reflexivity; try discriminate.

Lemma opchar_not_alpha (c : ascii) : is_opchar c = true -> is_alpha c = false.
Proof. ascii_cases c. Qed.

Lemma verchar_not_alpha (c : ascii) : is_verchar c = true -> is_alpha c = false.
Proof. ascii_cases c. Qed.

Lemma verchar_not_opchar (c : ascii) : is_verchar c = true -> is_opchar c = false.
Proof. ascii_cases c. Qed.

Lemma reqchar_not_newline (c : ascii) : is_reqchar c = true -> not_newline c = true.
Proof. ascii_cases c. Qed.

Lemma rendered_reqchars (pkg op ver : string) :
  string_forall is_alpha pkg = true -> string_forall is_opchar op = true ->
  string_forall is_verchar ver = true ->
  string_forall is_reqchar (pkg ++ op ++ ver) = true.
Proof.
  intros Hp Ho Hv. rewrite !string_forall_app.
  rewrite (string_forall_impl is_alpha is_reqchar pkg), 
          (string_forall_impl is_opchar is_reqchar op),
          (string_forall_impl is_verchar is_reqchar ver); try assumption;
    try reflexivity; intros c Hc; unfold is_reqchar; rewrite Hc;
    rewrite ?orb_true_r; reflexivity.
Qed.

Lemma reqchars_one_line (s : string) :
  string_forall is_reqchar s = true -> split newline s = [s].
Proof.
  intros H. apply split_line.
  apply (string_forall_impl is_reqchar); [apply reqchar_not_newline | exact H].
Qed.

Lemma reqchars_not_passthrough (s : string) :
  string_forall is_reqchar s = true -> passthrough s = false.
Proof.
  intros H. destruct (passthrough s) eqn:E; [|reflexivity].
  destruct (passthrough_shape s E) as [(x & ->)|(x & ->)]; discriminate H.
Qed.

Lemma alpha_kept (c : ascii) (s : string) :
  is_alpha c = true -> kept_line (String c s) = true.
Proof.
  intros H. unfold kept_line, startswith.
  cbn [String.length Nat.eqb negb andb String.prefix].
  destruct (ascii_dec "#" c) as [<-|]; [discriminate H | reflexivity].
Qed.

(** [rgx] on a rendered requirement gives back its three parts. *)
Lemma rgx_rendered (pkg op ver : string) :
  pkg <> "" -> string_forall is_alpha pkg = true ->
  string_forall is_opchar op = true -> string_forall is_verchar ver = true ->
  rgx (pkg ++ op ++ ver) = Some (pkg, op, ver).
Proof.
  intros Hne Hp Ho Hv.
  assert (H1 : span is_alpha (pkg ++ op ++ ver) = (pkg, op ++ ver)).
  { apply span_app_stop; [exact Hp|].
    apply (stop_char is_alpha (fun c => is_opchar c || is_verchar c)).
    - rewrite string_forall_app.
      rewrite (string_forall_impl is_opchar _ op), (string_forall_impl is_verchar _ ver);
        try assumption; try reflexivity; intros c Hc; rewrite Hc;
        rewrite ?orb_true_r; reflexivity.
    - intros c Hc. apply orb_true_iff in Hc as [Hc|Hc];
        [now apply opchar_not_alpha | now apply verchar_not_alpha]. }
  assert (H2 : span is_opchar (op ++ ver) = (op, ver)).
  { apply span_app_stop; [exact Ho|].
    apply (stop_char is_opchar is_verchar); [exact Hv | apply verchar_not_opchar]. }
  assert (H3 : span is_verchar ver = (ver, "")) by (now apply span_all).
  destruct pkg as [|c pkg]; [congruence|].
  simpl in Hp. apply andb_true_iff in Hp as [Hc _].
  change (String c pkg ++ op ++ ver) with (String c (pkg ++ op ++ ver)) in *.
  cbn [rgx]. rewrite Hc, H1, H2, H3. reflexivity.
Qed.

Lemma parse_rendered (pkg op ver : string) :
  pkg <> "" -> string_forall is_alpha pkg = true ->
  string_forall is_opchar op = true -> string_forall is_verchar ver = true ->
  parse_requirements (pkg ++ op ++ ver) = Ok [(pkg, op, ver)].
Proof.
  intros Hne Hp Ho Hv.
  pose proof (rendered_reqchars _ _ _ Hp Ho Hv) as Hreq.
  unfold parse_requirements. rewrite (reqchars_one_line _ Hreq).
  assert (Hk : kept_line (pkg ++ op ++ ver) = true).
  { destruct pkg as [|c pkg]; [congruence|].
    simpl in Hp. apply andb_true_iff in Hp as [Hc _]. now apply alpha_kept. }
  cbn [filter]. rewrite Hk. cbn [mapM]. unfold parse_line.
  rewrite (reqchars_not_passthrough _ Hreq), (rgx_rendered _ _ _ Hne Hp Ho Hv).
  reflexivity.
Qed.

(** ** Decimal text and floats *)

Lemma pow10_S (w : nat) : Npos (pow10 (S w)) = (10 * Npos (pow10 w))%N.
Proof. reflexivity. Qed.

Lemma digit_val_char (d : N) : (d < 10)%N -> digit_val (digit_char d) = d.
Proof.
  intros H. unfold digit_val, digit_char. rewrite N_ascii_embedding by lia. lia.
Qed.

Lemma is_digit_char (d : N) : (d < 10)%N -> is_digit (digit_char d) = true.
Proof.
  intros H. unfold is_digit, between, digit_char.
  rewrite N_ascii_embedding by lia.
  apply andb_true_iff. split; apply N.leb_le; lia.
Qed.

Lemma digits_val_app (x y : string) :
  forall a, digits_val a (x ++ y) = digits_val (digits_val a x) y.
Proof. induction x as [|c x IH]; intros a; simpl; [reflexivity | apply IH]. Qed.

Lemma mod10_lt (x : N) : (x mod 10 < 10)%N.
Proof. apply N.mod_lt. discriminate. Qed.

(** Reading back [w] printed digits. *)
Lemma digits_val_w (w : nat) :
  forall x a,
  digits_val a (digits_w w x)
  = (a * Npos (pow10 w) + x mod Npos (pow10 w))%N.
Proof.
  induction w as [|w IH]; intros x a.
  - simpl. rewrite N.mod_1_r. lia.
  - cbn [digits_w]. rewrite digits_val_app, IH. cbn [digits_val].
    rewrite (digit_val_char _ (mod10_lt x)), pow10_S.
    rewrite (N.Div0.mod_mul_r x 10 (Npos (pow10 w))). lia.
Qed.

Lemma length_app (a b : string) :
  String.length (a ++ b) = (String.length a + String.length b)%nat.
Proof. induction a as [|c a IH]; simpl; [reflexivity | now rewrite IH]. Qed.

Lemma digits_w_length (w : nat) : forall x, String.length (digits_w w x) = w.
Proof.
  induction w as [|w IH]; intros x; [reflexivity|].
  cbn [digits_w]. rewrite length_app, IH. simpl. lia.
Qed.

Lemma digits_w_digits (w : nat) :
  forall x, string_forall is_digit (digits_w w x) = true.
Proof.
  induction w as [|w IH]; intros x; [reflexivity|].
  cbn [digits_w]. rewrite string_forall_app, IH. simpl.
  now rewrite (is_digit_char _ (mod10_lt x)).
Qed.

Lemma count_digits_bound (fuel : nat) :
  forall n, (n < 2 ^ N.of_nat fuel)%N -> (n < Npos (pow10 (count_digits fuel n)))%N.
Proof.
  induction fuel as [|k IH]; intros n Hn.
  - simpl in *. lia.
  - cbn [count_digits]. destruct (n =? 0)%N eqn:E.
    + apply N.eqb_eq in E. subst n. simpl. lia.
    + rewrite pow10_S.
      assert (Hk : (n / 10 < 2 ^ N.of_nat k)%N).
      { rewrite Nat2N.inj_succ, N.pow_succ_r' in Hn.
        apply N.Div0.div_lt_upper_bound. lia. }
      specialize (IH _ Hk).
      pose proof (N.div_mod n 10 ltac:(discriminate)) as Hd.
      pose proof (mod10_lt n). lia.
Qed.

Lemma nb_digits_bound (n : N) : (n < Npos (pow10 (nb_digits n)))%N.
Proof.
  unfold nb_digits. apply count_digits_bound. rewrite N2Nat.id. apply N.size_gt.
Qed.

Lemma nb_digits_pos (n : N) : n <> 0%N -> nb_digits n <> O.
Proof.
  intros Hn E. pose proof (nb_digits_bound n) as H. rewrite E in H. simpl in H. lia.
Qed.

Lemma str_N_val (n : N) : digits_val 0 (str_N n) = n.
Proof.
  unfold str_N. destruct (n =? 0)%N eqn:E.
  - apply N.eqb_eq in E. now subst n.
  - rewrite digits_val_w. rewrite N.mod_small by apply nb_digits_bound. lia.
Qed.

Lemma str_N_digits (n : N) : string_forall is_digit (str_N n) = true.
Proof.
  unfold str_N. destruct (n =? 0)%N; [reflexivity | apply digits_w_digits].
Qed.

Lemma str_N_not_empty (n : N) : str_N n <> "".
Proof.
  unfold str_N. destruct (n =? 0)%N eqn:E; [discriminate|].
  apply N.eqb_neq in E. intros H. apply (f_equal String.length) in H.
  rewrite digits_w_length in H. simpl in H. now apply (nb_digits_pos n).
Qed.

Lemma normalize_canon (s : nat) :
  forall m, scale (normalize m s) = O \/ (mant (normalize m s) mod 10 <> 0)%N.
Proof.
  induction s as [|s IH]; intros m; simpl; [now left|].
  destruct (m mod 10 =? 0)%N eqn:E; [apply IH|].
  right. simpl. now apply N.eqb_neq.
Qed.

Lemma normalize_idem (m : N) (s : nat) :
  normalize (mant (normalize m s)) (scale (normalize m s)) = normalize m s.
Proof.
  destruct (normalize_canon s m) as [H|H];
    destruct (normalize m s) as [m' s']; simpl in *.
  - now subst s'.
  - destruct s' as [|k]; [reflexivity|]. simpl.
    apply N.eqb_neq in H. now rewrite H.
Qed.

(** Dropping trailing zeros keeps the value. *)
Lemma normalize_Q (s : nat) :
  forall m, Qeq (float_Q (normalize m s)) (float_Q (mkfloat m s)).
Proof.
  induction s as [|s IH]; intros m; simpl; [reflexivity|].
  destruct (m mod 10 =? 0)%N eqn:E; [|reflexivity].
  rewrite IH. apply N.eqb_eq in E.
  pose proof (N.div_mod m 10 ltac:(discriminate)) as Hd. rewrite E in Hd.
  unfold Qeq, float_Q. cbn [mant scale Qnum Qden].
  change (pow10 (S s)) with (10 * pow10 s)%positive.
  rewrite (Pos2Z.inj_mul 10 (pow10 s)).
  set (q := (m / 10)%N) in *. rewrite Hd. lia.
Qed.

Lemma major_minor_text (i f : string) :
  i <> "" -> f <> "" ->
  string_forall is_digit i = true -> string_forall is_digit f = true ->
  major_minor (i ++ "." ++ f) = Some (i, f).
Proof.
  intros Hi Hf Di Df. unfold major_minor.
  change ("." ++ f) with (String "." f).
  rewrite (span_app_stop is_digit i (String "." f) Di eq_refl).
  destruct i as [|c i]; [congruence|].
  rewrite Ascii.eqb_refl, (span_all _ _ Df).
  destruct f; [congruence | reflexivity].
Qed.

(** A float printed in positional notation reads back as itself. *)
Lemma repr_float_reads_back (f : pyfloat) :
  string_forall is_verchar (repr_float f) = true ->
  version_number_to_float (repr_float f) = Ok (normalize (mant f) (scale f)).
Proof.
  unfold repr_float.
  pose proof (normalize_canon (scale f) (mant f)) as Hcanon.
  pose proof (normalize_idem (mant f) (scale f)) as Hidem.
  destruct (normalize (mant f) (scale f)) as [m s]. cbn [mant scale] in *.
  destruct (m =? 0)%N eqn:Em.
  { intros _. apply N.eqb_eq in Em. subst m.
    destruct Hcanon as [->|H]; [reflexivity | now elim H]. }
  destruct ((-4 <? Z.of_nat (nb_digits m) - Z.of_nat s)%Z
            && (Z.of_nat (nb_digits m) - Z.of_nat s <=? 16)%Z).
  - intros _. unfold version_number_to_float.
    destruct s as [|k].
    + rewrite major_minor_text;
        [|apply str_N_not_empty | discriminate | apply str_N_digits | reflexivity].
      unfold float_of_text. rewrite digits_val_app, str_N_val. simpl.
      change (digit_val "0") with 0%N.
      rewrite N.add_0_r, N.div_1_r, N.Div0.mod_mul. simpl.
      rewrite N.div_mul by discriminate. reflexivity.
    + rewrite major_minor_text;
        [|apply str_N_not_empty | | apply str_N_digits | apply digits_w_digits].
      * unfold float_of_text.
        rewrite digits_val_app, str_N_val, digits_val_w, digits_w_length.
        rewrite N.Div0.mod_mod.
        rewrite N.mul_comm, <- N.div_mod by discriminate. now rewrite Hidem.
      * intros E. apply (f_equal String.length) in E.
        rewrite digits_w_length in E. discriminate.
  - rewrite string_forall_app.
    change ("e" ++ ?x) with (String "e" x). simpl. rewrite andb_false_r.
    discriminate.
Qed.

(** ** Rendering and parsing back *)

Lemma to_string_single (pkg : string) (cs : list (string * value)) :
  to_string [(pkg, cs)] = pkg ++ join "," (map clause cs).
Proof. reflexivity. Qed.

(** A name as the parser produces it: a pass-through line, or letters. *)
Lemma round_trip_unconstrained (pkg : string) :
  (passthrough pkg = true /\ string_forall not_newline pkg = true)
  \/ (pkg <> "" /\ string_forall is_alpha pkg = true) ->
  round_trip pkg [("", VStr "")].
Proof.
  intros Hname. exists []. split; [|reflexivity].
  rewrite to_string_single. cbn [map join String.concat].
  unfold clause, str. cbn [fst snd].
  change ("" ++ "") with "". rewrite append_nil_r.
  assert (Hparse : parse_requirements pkg = Ok [(pkg, "", "")]).
  { destruct Hname as [[Hpass Hnl]|[Hne Ha]].
    - unfold parse_requirements. rewrite (split_line _ Hnl). cbn [filter].
      rewrite (passthrough_kept _ Hpass). cbn [mapM]. unfold parse_line.
      now rewrite Hpass.
    - pose proof (parse_rendered pkg "" "" Hne Ha eq_refl eq_refl) as H.
      change ("" ++ "") with "" in H. now rewrite append_nil_r in H. }
  unfold constraint_set. rewrite Hparse. cbn [bind].
  apply versions_of_nil. simpl. intros item [<-|[]] _. reflexivity.
Qed.

Lemma round_trip_clause (pkg op : string) (f : pyfloat) :
  pkg <> "" -> string_forall is_alpha pkg = true ->
  string_forall is_opchar op = true ->
  string_forall is_verchar (repr_float f) = true ->
  round_trip pkg [(op, VNum (Float f))].
Proof.
  intros Hne Ha Ho Hv.
  pose proof (repr_float_reads_back f Hv) as Hread.
  exists [(op, normalize (mant f) (scale f))]. split.
  - rewrite to_string_single. cbn [map join String.concat].
    unfold clause, str, repr_num. cbn [fst snd].
    unfold constraint_set. rewrite (parse_rendered _ _ _ Hne Ha Ho Hv). cbn [bind].
    assert (Hlen : (String.length (repr_float f) =? 0)%nat = false).
    { destruct (repr_float f); [discriminate Hread | reflexivity]. }
    unfold versions_of. cbn [concat app filter]. unfold versioned at 1.
    cbn [name_of version_of op_of fst snd].
    rewrite String.eqb_refl, Hlen. cbn [negb andb mapM].
    cbn [version_of op_of fst snd]. rewrite Hread. reflexivity.
  - unfold equivalent. cbn [unconstrained same_clauses py_eq].
    rewrite String.eqb_refl. cbn [andb]. rewrite andb_true_r.
    unfold num_eq. cbn [num_Q]. apply Qeq_bool_iff. symmetry.
    rewrite normalize_Q. destruct f. reflexivity.
Qed.

Lemma fuser_single_result (order : list string) (reqs_list : list (list RawEntry))
  (pkg : string) (cs : list (string * value)) :
  set_order (pkgs reqs_list) order -> fuser order reqs_list = Ok [(pkg, cs)] ->
  In pkg (pkgs reqs_list) /\ fuser_pkg pkg reqs_list = Ok cs.
Proof.
  intros [_ Hiff] Hf. destruct order as [|p rest]; [discriminate Hf|].
  destruct (fuser_lookup _ _ _ p Hf (or_introl eq_refl)) as (vs & Hvs & Hget).
  simpl in Hget. destruct (String.eqb p pkg) eqn:E; [|discriminate].
  apply String.eqb_eq in E. subst p. inversion Hget; subst vs.
  split; [apply Hiff; now left | exact Hvs].
Qed.

Lemma resolve_shape (pkg : string) (versions : list pyfloat)
  (d : dict (num * num)) (cs : list (string * value)) :
  resolve pkg versions d = Ok cs -> List.length cs = 1%nat ->
  exists op n, cs = [(op, VNum n)] /\ string_forall is_opchar op = true.
Proof.
  unfold resolve. intros H Hlen.
  apply bind_Ok in H as (roof & _ & H). apply bind_Ok in H as (floor & _ & H).
  destruct (num_lt roof floor); [discriminate|].
  destruct (num_eq roof Inf).
  { destruct (dict_get ">=" d); [destruct (py_eq _ _)|];
      inversion H; subst cs; eauto. }
  destruct (num_eq floor (Int 0)).
  { destruct (dict_get "<=" d); [destruct (py_eq _ _)|];
      inversion H; subst cs; eauto. }
  inversion H; subst cs. discriminate Hlen.
Qed.

(** *** Inputs read by the parser *)

Section Parsed.

Variable inputs : list string.
Variable reqs_list : list (list RawEntry).
Hypothesis Hparsed : mapM parse_requirements inputs = Ok reqs_list.

(** The entries the parser hands to the fuser. *)
Lemma parsed_entry_shape (e : RawEntry) :
  In e (concat reqs_list) ->
  (passthrough (name_of e) = true /\ string_forall not_newline (name_of e) = true
   /\ version_of e = "")
  \/ (name_of e <> "" /\ string_forall is_alpha (name_of e) = true
      /\ string_forall is_opchar (op_of e) = true).
Proof.
  intros He.
  destruct (in_concat_mapM _ _ _ _ Hparsed He) as (t & reqs & _ & Ht & Hin).
  destruct (mapM_Ok_inv _ _ _ Ht _ Hin) as (line & Hline & Hparse).
  apply filter_In in Hline as [Hline _].
  destruct (parse_line_entry _ _ Hparse) as [[Hpass ->]|[_ Hr]].
  - left. repeat split; [exact Hpass | apply (split_lines_no_newline t _ Hline)].
  - right. destruct e as [[n o] v].
    apply rgx_groups in Hr as (H1 & H2 & H3 & _). repeat split; assumption.
Qed.

Lemma versioned_entry_shape (pkg : string) (versions : list (string * pyfloat)) :
  versions_of pkg reqs_list = Ok versions ->
  forall op f, In (op, f) versions ->
  pkg <> "" /\ string_forall is_alpha pkg = true
  /\ string_forall is_opchar op = true.
Proof.
  intros Hv op f Hin.
  destruct (mapM_Ok_inv _ _ _ Hv _ Hin) as (item & Hitem & Hconv).
  apply filter_In in Hitem as [Hitem Hver].
  apply bind_Ok in Hconv as (v & _ & Hconv). inversion Hconv; subst.
  unfold versioned in Hver. apply andb_true_iff in Hver as [Hname Hlen].
  apply String.eqb_eq in Hname. subst pkg.
  destruct (parsed_entry_shape _ Hitem) as [(_ & _ & Hnov)|H]; [|exact H].
  rewrite Hnov in Hlen. discriminate.
Qed.

(** C8. A line that begins with [--] or [git+] is parsed into the entry
    [(line, "", "")]; no version is ever collected under that key, so the
    fuser stores no constraint for it without comparing anything; and the
    rendered text has that very line among its lines. *)
Theorem passthrough_line (t r : string) :
  In t inputs -> In r (split newline t) -> passthrough r = true ->
  parse_line r = Ok (r, "", "")
  /\ In (r, "", "") (concat reqs_list)
  /\ versions_of r reqs_list = Ok []
  /\ fuser_pkg r reqs_list = Ok [("", VStr "")]
  /\ forall order, set_order (pkgs reqs_list) order ->
       (forall res, fuser order reqs_list = Ok res ->
          In (r, [("", VStr "")]) res /\ line_of (r, [("", VStr "")]) = r)
       /\ (forall out, main order inputs = Ok out -> In r (split newline out)).
Proof.
  intros Ht Hr Hpass.
  assert (Hline : parse_line r = Ok (r, "", ""))
    by (unfold parse_line; now rewrite Hpass).
  assert (Hentry : In (r, "", "") (concat reqs_list)).
  { destruct (mapM_Ok_In _ _ _ Hparsed _ Ht) as (reqs & Hreqs & Hin).
    assert (Hk : In r (filter kept_line (split newline t)))
      by (apply filter_In; split; [exact Hr | now apply passthrough_kept]).
    destruct (mapM_Ok_In _ _ _ Hreqs _ Hk) as (e & He & Hine).
    rewrite Hline in He. inversion He; subst e.
    apply in_concat. eauto. }
  assert (Hnil : versions_of r reqs_list = Ok []).
  { apply versions_of_nil. intros item Hitem Hname.
    destruct (parsed_entry_shape _ Hitem) as [(_ & _ & Hnov)|(_ & Ha & _)];
      [exact Hnov|].
    apply passthrough_not_alpha in Hpass. congruence. }
  assert (Hpkg : fuser_pkg r reqs_list = Ok [("", VStr "")])
    by (unfold fuser_pkg; now rewrite Hnil).
  assert (Hl : line_of (r, [("", VStr "")]) = r)
    by (unfold line_of, clause; simpl; apply append_nil_r).
  assert (Hres : forall order res, set_order (pkgs reqs_list) order ->
            fuser order reqs_list = Ok res -> In (r, [("", VStr "")]) res).
  { intros order res [_ Hiff] Hf.
    assert (Hin : In r order) by (apply Hiff; apply (in_map name_of _ _ Hentry)).
    destruct (fuser_lookup _ _ _ _ Hf Hin) as (vs & Hvs & Hget).
    rewrite Hpkg in Hvs. inversion Hvs; subst vs. now apply dict_get_In. }
  repeat split; try assumption.
  - now apply (Hres order).
  - intros out Hout. unfold main in Hout. rewrite Hparsed in Hout. simpl in Hout.
    apply bind_Ok in Hout as (res & Hf & Hout). inversion Hout; subst out.
    unfold to_string. apply join_in_split.
    + rewrite <- Hl at 1. apply in_map. now apply (Hres order).
    + now apply (split_lines_no_newline t).
Qed.

(** C9, amended.  For inputs read by the parser and fused without conflict
    into a mapping with a single package, whose resolved constraint has one
    clause (no constraint, or one operator and version) with the version, if
    any, a float printed in positional notation: rendering the mapping and
    parsing the text back gives an equivalent constraint set. *)
Theorem round_trip_single_clause (order : list string) (pkg : string)
  (cs : list (string * value)) :
  set_order (pkgs reqs_list) order ->
  fuser order reqs_list = Ok [(pkg, cs)] ->
  List.length cs = 1%nat -> positional cs = true ->
  round_trip pkg cs.
Proof.
  intros Ho Hf Hlen Hpos.
  destruct (fuser_single_result _ _ _ _ Ho Hf) as [Hin Hpkg].
  unfold fuser_pkg in Hpkg. apply bind_Ok in Hpkg as (versions & Hv & Hpkg).
  destruct versions as [|[op f] rest].
  - inversion Hpkg; subst cs. apply round_trip_unconstrained.
    unfold pkgs in Hin. apply in_map_iff in Hin as (e & <- & He).
    destruct (parsed_entry_shape _ He) as [(H1 & H2 & _)|(H1 & H2 & _)]; auto.
  - destruct (versioned_entry_shape _ _ Hv op f (or_introl eq_refl))
      as (Hne & Ha & Hop).
    destruct rest as [|ov rest].
    + inversion Hpkg; subst cs. simpl in Hpos. rewrite andb_true_r in Hpos.
      now apply round_trip_clause.
    + apply bind_Ok in Hpkg as (d & _ & Hres).
      destruct (resolve_shape _ _ _ _ Hres Hlen) as (o & n & -> & Hopc).
      simpl in Hpos. rewrite andb_true_r in Hpos.
      destruct n as [z|g|]; try discriminate Hpos.
      now apply round_trip_clause.
Qed.

End Parsed.

Lemma passthrough_line_witness :
  In example_file [example_file]
  /\ In vcs_line (split newline example_file)
  /\ passthrough vcs_line = true
  /\ mapM parse_requirements [example_file]
     = Ok [[(vcs_line, "", ""); ("pkgA", ">=", "2.2")]]
  /\ parse_line vcs_line = Ok (vcs_line, "", "")
  /\ In (vcs_line, "", "") (concat [[(vcs_line, "", ""); ("pkgA", ">=", "2.2")]])
  /\ versions_of vcs_line [[(vcs_line, "", ""); ("pkgA", ">=", "2.2")]] = Ok []
  /\ fuser_pkg vcs_line [[(vcs_line, "", ""); ("pkgA", ">=", "2.2")]]
     = Ok [("", VStr "")]
  /\ forall order,
       set_order (pkgs [[(vcs_line, "", ""); ("pkgA", ">=", "2.2")]]) order ->
       (forall res,
          fuser order [[(vcs_line, "", ""); ("pkgA", ">=", "2.2")]] = Ok res ->
          In (vcs_line, [("", VStr "")]) res
          /\ line_of (vcs_line, [("", VStr "")]) = vcs_line)
       /\ (forall out, main order [example_file] = Ok out ->
             In vcs_line (split newline out)).
Proof.
  assert (H1 : In example_file [example_file]) by (now left).
  assert (H2 : In vcs_line (split newline example_file))
    by (vm_compute; right; left; reflexivity).
  assert (H3 : passthrough vcs_line = true) by reflexivity.
  assert (H4 : mapM parse_requirements [example_file]
               = Ok [[(vcs_line, "", ""); ("pkgA", ">=", "2.2")]]) by reflexivity.
  split; [exact H1|]. split; [exact H2|]. split; [exact H3|]. split; [exact H4|].
  exact (passthrough_line [example_file] _ H4 example_file vcs_line H1 H2 H3).
Defined.

(** C9, as stated, fails.  Two sources that both pin [pkgA==3.2] fuse without
    conflict to the closed range [>=3.2,<=3.2]; it is rendered as
    [pkgA>=3.2,<=3.2], of which [parse_requirements] reads the first clause
    only, so the constraint set read back is [>=3.2] alone. *)
Lemma round_trip_closed_range_fails :
  fuser ["pkgA"] twice_pinned
    = Ok [("pkgA", [(">=", VNum (Float (mkfloat 32 1)));
                    ("<=", VNum (Float (mkfloat 32 1)))])]
  /\ to_string [("pkgA", [(">=", VNum (Float (mkfloat 32 1)));
                          ("<=", VNum (Float (mkfloat 32 1)))])]
     = "pkgA>=3.2,<=3.2"
  /\ parse_requirements "pkgA>=3.2,<=3.2" = Ok [("pkgA", ">=", "3.2")]
  /\ ~ (forall order reqs_list pkg cs,
          set_order (pkgs reqs_list) order ->
          fuser order reqs_list = Ok [(pkg, cs)] -> round_trip pkg cs).
Proof.
  split; [reflexivity|]. split; [reflexivity|]. split; [reflexivity|].
  intros H.
  destruct (H ["pkgA"] twice_pinned "pkgA"
              [(">=", VNum (Float (mkfloat 32 1))); ("<=", VNum (Float (mkfloat 32 1)))])
    as (vs & Hvs & Heq).
  - split; [repeat constructor; intros [] |].
    intros p. simpl. tauto.
  - reflexivity.
  - vm_compute in Hvs. inversion Hvs; subst vs. vm_compute in Heq. discriminate.
Qed.

Lemma round_trip_single_clause_witness :
  mapM parse_requirements ["pkgA>=1.0"; "pkgA>0.5"]
    = Ok [[("pkgA", ">=", "1.0")]; [("pkgA", ">", "0.5")]]
  /\ set_order (pkgs [[("pkgA", ">=", "1.0")]; [("pkgA", ">", "0.5")]]) ["pkgA"]
  /\ fuser ["pkgA"] [[("pkgA", ">=", "1.0")]; [("pkgA", ">", "0.5")]]
     = Ok [("pkgA", [(">", VNum (Float (mkfloat 5 1)))])]
  /\ List.length [(">", VNum (Float (mkfloat 5 1)))] = 1%nat
  /\ positional [(">", VNum (Float (mkfloat 5 1)))] = true
  /\ round_trip "pkgA" [(">", VNum (Float (mkfloat 5 1)))].
Proof.
  assert (H1 : mapM parse_requirements ["pkgA>=1.0"; "pkgA>0.5"]
               = Ok [[("pkgA", ">=", "1.0")]; [("pkgA", ">", "0.5")]]) by reflexivity.
  assert (H2 : set_order (pkgs [[("pkgA", ">=", "1.0")]; [("pkgA", ">", "0.5")]])
                 ["pkgA"]).
  { split; [repeat constructor; intros [] | intros p; simpl; tauto]. }
  assert (H3 : fuser ["pkgA"] [[("pkgA", ">=", "1.0")]; [("pkgA", ">", "0.5")]]
               = Ok [("pkgA", [(">", VNum (Float (mkfloat 5 1)))])]) by reflexivity.
  assert (H4 : List.length [(">", VNum (Float (mkfloat 5 1)))] = 1%nat) by reflexivity.
  assert (H5 : positional [(">", VNum (Float (mkfloat 5 1)))] = true) by reflexivity.
  repeat (split; [assumption|]).
  exact (round_trip_single_clause _ _ H1 _ _ _ H2 H3 H4 H5).
Defined.

(** Two further results that do not read back: the bound [>0], whose version
    has no minor part, and a version that [repr] prints with an exponent. *)
Lemma round_trip_other_failures :
  main ["pkgA"] ["pkgA<2.0"; "pkgA>3.0"] = Ok "pkgA>0"
  /\ constraint_set "pkgA" "pkgA>0"
     = Raise (TypeError "'NoneType' object is not subscriptable")
  /\ main ["pkgA"] ["pkgA==0.00001"] = Ok "pkgA==1e-05"
  /\ constraint_set "pkgA" "pkgA==1e-05"
     = Raise (TypeError "'NoneType' object is not subscriptable").
Proof. repeat split; vm_compute; reflexivity. Qed.

(** ** A package with one pin *)

Lemma major_minor_rest (i f rest : string) :
  i <> "" -> f <> "" ->
  string_forall is_digit i = true -> string_forall is_digit f = true ->
  stops is_digit rest ->
  major_minor (i ++ "." ++ f ++ rest) = Some (i, f).
Proof.
  intros Hi Hf Di Df Hrest. unfold major_minor.
  change ("." ++ f ++ rest) with (String "." (f ++ rest)).
  rewrite (span_app_stop is_digit i (String "." (f ++ rest)) Di eq_refl).
  destruct i as [|c i]; [congruence|].
  rewrite Ascii.eqb_refl, (span_app_stop _ _ _ Df Hrest).
  destruct f; [congruence | reflexivity].
Qed.

(** C6, amended.  A package whose only versioned spec, over all sources, is
    one [==] spec whose version begins with [major.minor] (digits, a dot,
    digits, then nothing or a character that is not a digit) is resolved to
    the pin [==] with [float(major.minor)], the float of that prefix of the
    version.  The pin is stored under the package in every mapping the run
    returns, and [pkg==] followed by the print of that float is one of the
    rendered lines. *)
Theorem fuser_single_pin (pkg i f rest : string) (reqs_list : list (list RawEntry)) :
  filter (versioned pkg) (concat reqs_list) = [(pkg, "==", i ++ "." ++ f ++ rest)] ->
  i <> "" -> f <> "" ->
  string_forall is_digit i = true -> string_forall is_digit f = true ->
  stops is_digit rest ->
  fuser_pkg pkg reqs_list = Ok [("==", VNum (Float (float_of_text i f)))]
  /\ forall order res, set_order (pkgs reqs_list) order ->
       fuser order reqs_list = Ok res ->
       dict_get pkg res = Some [("==", VNum (Float (float_of_text i f)))]
       /\ In (pkg ++ "==" ++ repr_float (float_of_text i f)) (map line_of res).
Proof.
  intros Hone Hi Hf Di Df Hrest.
  assert (Hp : fuser_pkg pkg reqs_list
               = Ok [("==", VNum (Float (float_of_text i f)))]).
  { unfold fuser_pkg, versions_of. rewrite Hone. cbn [mapM].
    cbn [version_of op_of fst snd]. unfold version_number_to_float.
    rewrite (major_minor_rest _ _ _ Hi Hf Di Df Hrest). reflexivity. }
  split; [exact Hp|].
  intros order res [_ Hiff] Hres.
  assert (Hin : In pkg order).
  { apply Hiff. unfold pkgs.
    assert (Hitem : In (pkg, "==", i ++ "." ++ f ++ rest)
                       (filter (versioned pkg) (concat reqs_list)))
      by (rewrite Hone; now left).
    apply filter_In in Hitem as [Hitem _].
    exact (in_map name_of _ _ Hitem). }
  destruct (fuser_lookup _ _ _ _ Hres Hin) as (vs & Hvs & Hget).
  rewrite Hp in Hvs. inversion Hvs; subst vs. split; [exact Hget|].
  apply dict_get_In in Hget.
  exact (in_map line_of _ _ Hget).
Qed.

Lemma fuser_single_pin_witness :
  filter (versioned "editdistance")
         (concat [[("wandb", "", ""); ("editdistance", "==", "3.2.1")]])
    = [("editdistance", "==", "3" ++ "." ++ "2" ++ ".1")]
  /\ string_forall is_digit "3" = true /\ string_forall is_digit "2" = true
  /\ stops is_digit ".1"
  /\ fuser_pkg "editdistance" [[("wandb", "", ""); ("editdistance", "==", "3.2.1")]]
     = Ok [("==", VNum (Float (float_of_text "3" "2")))]
  /\ forall order res,
       set_order (pkgs [[("wandb", "", ""); ("editdistance", "==", "3.2.1")]]) order ->
       fuser order [[("wandb", "", ""); ("editdistance", "==", "3.2.1")]] = Ok res ->
       dict_get "editdistance" res = Some [("==", VNum (Float (float_of_text "3" "2")))]
       /\ In ("editdistance" ++ "==" ++ repr_float (float_of_text "3" "2"))
             (map line_of res).
Proof.
  split; [reflexivity|]. split; [reflexivity|]. split; [reflexivity|].
  split; [reflexivity|].
  apply (fuser_single_pin "editdistance" "3" "2" ".1");
    first [reflexivity | discriminate].
Defined.

(** C6, as stated, fails.  The single pin [pkgA==3] has no [major.minor]:
    the search of [version_number_to_float] fails and the run raises
    [TypeError] instead of resolving the package.  Where the run succeeds the
    version kept is the float of the [major.minor] prefix: [pkgA==3.2.1] is
    rendered [pkgA==3.2], and [pkgA==1.10] is rendered [pkgA==1.1]. *)
Lemma fuser_single_pin_fails :
  filter (versioned "pkgA") (concat [[("pkgA", "==", "3")]]) = [("pkgA", "==", "3")]
  /\ fuser ["pkgA"] [[("pkgA", "==", "3")]]
     = Raise (TypeError "'NoneType' object is not subscriptable")
  /\ main ["pkgA"] ["pkgA==3"]
     = Raise (TypeError "'NoneType' object is not subscriptable")
  /\ main ["pkgA"] ["pkgA==3.2.1"] = Ok "pkgA==3.2"
  /\ main ["pkgA"] ["pkgA==1.10"] = Ok "pkgA==1.1"
  /\ ~ (forall order reqs_list pkg v,
          set_order (pkgs reqs_list) order ->
          filter (versioned pkg) (concat reqs_list) = [(pkg, "==", v)] ->
          exists res x, fuser order reqs_list = Ok res
                        /\ dict_get pkg res = Some [("==", x)]).
Proof.
  split; [reflexivity|]. split; [reflexivity|]. split; [reflexivity|].
  split; [reflexivity|]. split; [reflexivity|].
  intros H.
  destruct (H ["pkgA"] [[("pkgA", "==", "3")]] "pkgA" "3") as (res & x & Hres & _).
  - split; [repeat constructor; intros [] | intros p; simpl; tauto].
  - reflexivity.
  - discriminate Hres.
Qed.

(** * Further properties of the code *)

(** ** parse_requirements, line by line *)

Lemma mapM_app {A B : Type} (f : A -> result B) (l1 l2 : list A) :
  mapM f (l1 ++ l2)
  = (x <- mapM f l1 ;; y <- mapM f l2 ;; Ok (x ++ y)%list).
Proof.
  induction l1 as [|a l1 IH]; simpl.
  - destruct (mapM f l2); reflexivity.
  - destruct (f a) as [b|e]; simpl; [|reflexivity].
    rewrite IH. destruct (mapM f l1); simpl; [|reflexivity].
    destruct (mapM f l2); reflexivity.
Qed.

Lemma mapM_total {A B : Type} (f : A -> result B) (l : list A) :
  (forall a, In a l -> exists b, f a = Ok b) -> exists bs, mapM f l = Ok bs.
Proof.
  induction l as [|x l IH]; intros H; simpl; [eauto|].
  destruct (H x (or_introl eq_refl)) as (b & ->).
  destruct IH as (bs & ->); [intros a Ha; apply H; now right|].
  simpl. eauto.
Qed.

Lemma mapM_Raise_inv {A B : Type} (f : A -> result B) (l : list A) (e : exn) :
  mapM f l = Raise e -> exists a, In a l /\ f a = Raise e.
Proof.
  induction l as [|x l IH]; simpl; [discriminate|].
  destruct (f x) as [b|e'] eqn:E; simpl.
  - destruct (mapM f l) as [bs|e'']; simpl; [discriminate|].
    intros H. inversion H; subst e''.
    destruct (IH eq_refl) as (a & Ha & Hf). exists a. split; [now right | assumption].
  - intros H. inversion H; subst e'. exists x. split; [now left | assumption].
Qed.

Lemma mapM_Raise {A B : Type} (f : A -> result B) (l : list A) (a : A) (e : exn) :
  In a l -> f a = Raise e -> (forall a' e', f a' = Raise e' -> e' = e) ->
  mapM f l = Raise e.
Proof.
  intros Ha Hf Hall.
  destruct (mapM f l) as [bs|e'] eqn:E.
  - destruct (mapM_Ok_In _ _ _ E _ Ha) as (b & Hb & _). congruence.
  - apply mapM_Raise_inv in E as (a' & _ & Hf'). now rewrite (Hall _ _ Hf').
Qed.

Lemma parse_lines_app (a b : string) :
  parse_requirements (a ++ String newline b)
  = (x <- parse_requirements a ;; y <- parse_requirements b ;; Ok (x ++ y)%list).
Proof.
  unfold parse_requirements. now rewrite split_app_sep, filter_app, mapM_app.
Qed.

Lemma join_cons (sep x y : string) (l : list string) :
  join sep (x :: y :: l) = x ++ sep ++ join sep (y :: l).
Proof. reflexivity. Qed.

(** X1. Parsing goes line by line: the entries of several texts joined by
    newlines are the entries of each text, in order, and the first text that
    fails to parse makes the joined text fail in the same way. *)
Theorem parse_requirements_join (texts : list string) :
  parse_requirements (join (String newline "") texts)
  = (rs <- mapM parse_requirements texts ;; Ok (concat rs)).
Proof.
  induction texts as [|t rest IH]; [reflexivity|].
  destruct rest as [|t' rest].
  - unfold join. cbn [String.concat mapM].
    destruct (parse_requirements t) as [r|e]; [|reflexivity].
    cbn [bind concat]. now rewrite app_nil_r.
  - rewrite (join_cons (String newline "") t t' rest).
    change (String newline "" ++ join (String newline "") (t' :: rest))
      with (String newline (join (String newline "") (t' :: rest))).
    rewrite parse_lines_app, IH. cbn [mapM].
    destruct (parse_requirements t) as [r|e]; [|reflexivity]. cbn [bind].
    destruct (parse_requirements t') as [r'|e']; [|reflexivity]. cbn [bind].
    destruct (mapM parse_requirements rest) as [rs|e'']; reflexivity.
Qed.

(** X2. A comment line or an empty line contributes nothing: removing it
    from a text changes neither the entries nor the failure. *)
Theorem parse_requirements_skips (a c b : string) :
  kept_line c = false -> string_forall not_newline c = true ->
  parse_requirements (a ++ String newline (c ++ String newline b))
  = parse_requirements (a ++ String newline b).
Proof.
  intros Hk Hc. rewrite !parse_lines_app.
  assert (Hnone : parse_requirements c = Ok []).
  { unfold parse_requirements. rewrite (split_line _ Hc). cbn [filter].
    now rewrite Hk. }
  rewrite Hnone. cbn [bind].
  destruct (parse_requirements a) as [x|e]; [|reflexivity]. cbn [bind].
  destruct (parse_requirements b) as [y|e]; reflexivity.
Qed.

Lemma parse_requirements_skips_witness :
  kept_line "# pinned for CI" = false
  /\ string_forall not_newline "# pinned for CI" = true
  /\ parse_requirements
       ("pkgA>=2.2" ++ String newline ("# pinned for CI" ++ String newline "pkgB"))
     = parse_requirements ("pkgA>=2.2" ++ String newline "pkgB").
Proof.
  split; [reflexivity|]. split; [reflexivity|].
  apply (parse_requirements_skips "pkgA>=2.2" "# pinned for CI" "pkgB"); reflexivity.
Defined.

Lemma rgx_None_iff (r : string) : rgx r = None <-> has_letter r = false.
Proof.
  unfold has_letter. induction r as [|c r IH]; [simpl; tauto|].
  cbn [rgx string_forall]. destruct (is_alpha c); cbn [negb andb].
  - destruct (span is_alpha (String c r)) as [n r1].
    destruct (span is_opchar r1) as [o r2]. destruct (span is_verchar r2) as [v r3].
    split; discriminate.
  - exact IH.
Qed.

(** X3. [parse_requirements] returns entries exactly when every line it
    keeps is a pass-through line or contains a letter; otherwise the
    exception is the [TypeError] of subscripting the failed match. *)
Theorem parse_requirements_succeeds_iff (t : string) :
  ((exists reqs, parse_requirements t = Ok reqs) <->
   (forall r, In r (split newline t) -> kept_line r = true ->
      passthrough r = true \/ has_letter r = true))
  /\ (forall e, parse_requirements t = Raise e ->
        e = TypeError "'NoneType' object is not subscriptable").
Proof.
  split; [split|].
  - intros (reqs & H) r Hr Hk.
    assert (Hin : In r (filter kept_line (split newline t)))
      by (apply filter_In; auto).
    destruct (mapM_Ok_In _ _ _ H _ Hin) as (e & He & _).
    destruct (parse_line_entry _ _ He) as [[Hp _]|[_ Hr']]; [now left|].
    right. destruct (has_letter r) eqn:E; [reflexivity|].
    apply rgx_None_iff in E. congruence.
  - intros H. apply mapM_total. intros r Hr.
    apply filter_In in Hr as [Hr Hk]. unfold parse_line.
    destruct (H r Hr Hk) as [Hp|Hl].
    + rewrite Hp. eauto.
    + destruct (passthrough r); [eauto|].
      destruct (rgx r) eqn:E; [eauto|].
      apply rgx_None_iff in E. congruence.
  - intros e H. apply mapM_Raise_inv in H as (r & _ & Hr).
    unfold parse_line in Hr. destruct (passthrough r); [discriminate|].
    destruct (rgx r); [discriminate|]. now inversion Hr.
Qed.

Lemma stops_app (p q : ascii -> bool) (a b : string) :
  string_forall q a = true -> (forall c, q c = true -> p c = false) ->
  stops p b -> stops p (a ++ b).
Proof.
  intros Ha Hqp Hb. destruct a as [|c a]; [exact Hb|].
  simpl in *. apply andb_true_iff in Ha as [Hc _]. now apply Hqp.
Qed.

(** X4. [rgx] reads a name of letters, an operator and a version, and drops
    whatever follows them on the line: a second clause after a comma, the
    rest of a hyphenated name, an environment marker. *)
Theorem rgx_ignores_rest (name op ver rest : string) :
  name <> "" -> string_forall is_alpha name = true ->
  string_forall is_opchar op = true -> string_forall is_verchar ver = true ->
  stops is_reqchar rest ->
  rgx (name ++ op ++ ver ++ rest) = Some (name, op, ver).
Proof.
  intros Hne Hn Ho Hv Hrest.
  assert (Hra : stops is_alpha rest /\ stops is_opchar rest /\ stops is_verchar rest).
  { destruct rest as [|c rest]; simpl in *; [tauto|].
    unfold is_reqchar in Hrest.
    apply orb_false_iff in Hrest as [Hrest Hc3].
    apply orb_false_iff in Hrest as [Hc1 Hc2]. tauto. }
  destruct Hra as (Ra & Ro & Rv).
  assert (H3 : span is_verchar (ver ++ rest) = (ver, rest))
    by (apply span_app_stop; assumption).
  assert (H2 : span is_opchar (op ++ ver ++ rest) = (op, ver ++ rest)).
  { apply span_app_stop; [assumption|].
    apply (stops_app _ is_verchar); [assumption | apply verchar_not_opchar | assumption]. }
  assert (H1 : span is_alpha (name ++ op ++ ver ++ rest) = (name, op ++ ver ++ rest)).
  { apply span_app_stop; [assumption|].
    apply (stops_app _ is_opchar); [assumption | apply opchar_not_alpha |].
    apply (stops_app _ is_verchar); [assumption | apply verchar_not_alpha | assumption]. }
  destruct name as [|c name]; [congruence|].
  simpl in Hn. apply andb_true_iff in Hn as [Hc _].
  change (String c name ++ op ++ ver ++ rest)
    with (String c (name ++ op ++ ver ++ rest)) in *.
  cbn [rgx]. now rewrite Hc, H1, H2, H3.
Qed.

Lemma rgx_ignores_rest_witness :
  "pkgA" <> "" /\ string_forall is_alpha "pkgA" = true
  /\ string_forall is_opchar ">=" = true /\ string_forall is_verchar "3.2" = true
  /\ stops is_reqchar ",<=4.0"
  /\ rgx ("pkgA" ++ ">=" ++ "3.2" ++ ",<=4.0") = Some ("pkgA", ">=", "3.2").
Proof.
  assert (H0 : "pkgA" <> "") by discriminate.
  repeat (split; [first [exact H0 | reflexivity]|]).
  apply (rgx_ignores_rest "pkgA" ">=" "3.2" ",<=4.0"); first [exact H0 | reflexivity].
Defined.

(** X5. Every entry [parse_requirements] returns is either a pass-through
    line with empty operator and version, or a non-empty name of letters with
    an operator made of [<], [>], [=] and a version made of digits and
    dots. *)
Theorem parse_requirements_entries (t : string) (reqs : list RawEntry)
  (e : RawEntry) :
  parse_requirements t = Ok reqs -> In e reqs ->
  (passthrough (name_of e) = true /\ In (name_of e) (split newline t)
   /\ op_of e = "" /\ version_of e = "")
  \/ (name_of e <> "" /\ string_forall is_alpha (name_of e) = true
      /\ string_forall is_opchar (op_of e) = true
      /\ string_forall is_verchar (version_of e) = true).
Proof.
  intros Ht He.
  destruct (mapM_Ok_inv _ _ _ Ht _ He) as (line & Hline & Hparse).
  apply filter_In in Hline as [Hline _].
  destruct (parse_line_entry _ _ Hparse) as [[Hpass ->]|[_ Hr]].
  - left. repeat split; assumption.
  - right. destruct e as [[n o] v]. now apply rgx_groups in Hr.
Qed.

Lemma parse_requirements_entries_witness :
  parse_requirements example_file = Ok [(vcs_line, "", ""); ("pkgA", ">=", "2.2")]
  /\ In ("pkgA", ">=", "2.2") [(vcs_line, "", ""); ("pkgA", ">=", "2.2")]
  /\ ((passthrough "pkgA" = true /\ In "pkgA" (split newline example_file)
       /\ ">=" = "" /\ "2.2" = "")
      \/ ("pkgA" <> "" /\ string_forall is_alpha "pkgA" = true
          /\ string_forall is_opchar ">=" = true
          /\ string_forall is_verchar "2.2" = true)).
Proof.
  assert (H1 : parse_requirements example_file
               = Ok [(vcs_line, "", ""); ("pkgA", ">=", "2.2")]) by reflexivity.
  assert (H2 : In ("pkgA", ">=", "2.2") [(vcs_line, "", ""); ("pkgA", ">=", "2.2")])
    by (right; now left).
  split; [exact H1|]. split; [exact H2|].
  exact (parse_requirements_entries _ _ _ H1 H2).
Defined.

(** ** version_number_to_float *)

Lemma span_decompose (p : ascii -> bool) (s a b : string) :
  span p s = (a, b) -> s = a ++ b /\ string_forall p a = true /\ stops p b.
Proof.
  revert a b. induction s as [|c s IH]; intros a b H; simpl in H.
  - inversion H. repeat split.
  - destruct (p c) eqn:E.
    + destruct (span p s) as [a' b'] eqn:Es. inversion H; subst.
      destruct (IH _ _ eq_refl) as (-> & Ha & Hb). simpl. rewrite E. auto.
    + inversion H; subst. simpl. auto.
Qed.

(** X6. [version_number_to_float] succeeds exactly on the strings that begin
    with digits, a dot and digits, and returns the float of that prefix:
    whatever follows the minor part (a patch level, a suffix) is ignored.
    On any other string it raises the [TypeError] of subscripting [None]. *)
Theorem version_number_to_float_spec (v : string) :
  (forall x, version_number_to_float v = Ok x <->
     exists i f rest,
       v = i ++ "." ++ f ++ rest /\ i <> "" /\ f <> ""
       /\ string_forall is_digit i = true /\ string_forall is_digit f = true
       /\ stops is_digit rest /\ x = float_of_text i f)
  /\ (forall e, version_number_to_float v = Raise e ->
        e = TypeError "'NoneType' object is not subscriptable").
Proof.
  split.
  - intros x. split.
    + unfold version_number_to_float, major_minor.
      destruct (span is_digit v) as [i r] eqn:E1.
      apply span_decompose in E1 as (-> & Di & _).
      destruct i as [|c0 i]; [discriminate|].
      destruct r as [|c r]; [discriminate|].
      destruct (Ascii.eqb c ".") eqn:Ec; [|discriminate].
      apply Ascii.eqb_eq in Ec. subst c.
      destruct (span is_digit r) as [f rest] eqn:E2.
      apply span_decompose in E2 as (-> & Df & Hrest).
      destruct f as [|c1 f]; [discriminate|].
      intros H. inversion H.
      exists (String c0 i), (String c1 f), rest.
      repeat split; try assumption; discriminate.
    + intros (i & f & rest & -> & Hi & Hf & Di & Df & Hrest & ->).
      unfold version_number_to_float.
      now rewrite (major_minor_rest _ _ _ Hi Hf Di Df Hrest).
  - intros e. unfold version_number_to_float.
    destruct (major_minor v) as [[i f]|]; [discriminate|].
    intros H. now inversion H.
Qed.

Lemma float_of_text_trailing_zero (i f : string) :
  float_of_text i (f ++ "0") = float_of_text i f.
Proof.
  unfold float_of_text.
  replace (i ++ f ++ "0") with ((i ++ f) ++ "0")
    by (induction i as [|c i IH]; simpl; [reflexivity | now rewrite IH]).
  rewrite digits_val_app, length_app. cbn [digits_val String.length].
  change (digit_val "0") with 0%N. rewrite Nat.add_1_r, N.add_0_r.
  cbn [normalize]. rewrite N.Div0.mod_mul. cbn [N.eqb].
  now rewrite N.div_mul by discriminate.
Qed.

Lemma float_of_text_leading_zero (i f : string) :
  float_of_text ("0" ++ i) f = float_of_text i f.
Proof. reflexivity. Qed.

(** X7. A trailing zero of the minor part and a leading zero of the major
    part do not change the float: [1.10] is read as [1.1], and [01.5] as
    [1.5]. *)
Theorem version_number_to_float_zeros (i f : string) :
  i <> "" -> f <> "" ->
  string_forall is_digit i = true -> string_forall is_digit f = true ->
  version_number_to_float (i ++ "." ++ f ++ "0")
    = version_number_to_float (i ++ "." ++ f)
  /\ version_number_to_float ("0" ++ i ++ "." ++ f)
     = version_number_to_float (i ++ "." ++ f).
Proof.
  intros Hi Hf Di Df.
  assert (Hbase : version_number_to_float (i ++ "." ++ f) = Ok (float_of_text i f)).
  { unfold version_number_to_float. now rewrite major_minor_text. }
  rewrite Hbase. split.
  - unfold version_number_to_float. rewrite major_minor_text; try assumption.
    + now rewrite float_of_text_trailing_zero.
    + destruct f; discriminate.
    + rewrite string_forall_app, Df. reflexivity.
  - unfold version_number_to_float.
    change ("0" ++ i ++ "." ++ f) with (("0" ++ i) ++ "." ++ f).
    rewrite (major_minor_text ("0" ++ i) f); try assumption.
    + now rewrite float_of_text_leading_zero.
    + discriminate.
Qed.

Lemma version_number_to_float_zeros_witness :
  "1" <> "" /\ "1" <> ""
  /\ string_forall is_digit "1" = true /\ string_forall is_digit "1" = true
  /\ version_number_to_float ("1" ++ "." ++ "1" ++ "0")
     = version_number_to_float ("1" ++ "." ++ "1")
  /\ version_number_to_float ("0" ++ "1" ++ "." ++ "1")
     = version_number_to_float ("1" ++ "." ++ "1").
Proof.
  assert (H0 : "1" <> "") by discriminate.
  repeat (split; [first [exact H0 | reflexivity]|]).
  apply (version_number_to_float_zeros "1" "1"); first [exact H0 | reflexivity].
Defined.

(** X8. A float that [version_number_to_float] returns and that is printed
    without an exponent reads back as itself. *)
Theorem version_text_round_trip (v : string) (x : pyfloat) :
  version_number_to_float v = Ok x ->
  string_forall is_verchar (repr_float x) = true ->
  version_number_to_float (repr_float x) = Ok x.
Proof.
  intros Hv Hpos. rewrite (repr_float_reads_back x Hpos). f_equal.
  unfold version_number_to_float in Hv.
  destruct (major_minor v) as [[i f]|]; [|discriminate].
  inversion Hv. unfold float_of_text. apply normalize_idem.
Qed.

Lemma version_text_round_trip_witness :
  version_number_to_float "10.20.3" = Ok (mkfloat 102 1)
  /\ string_forall is_verchar (repr_float (mkfloat 102 1)) = true
  /\ version_number_to_float (repr_float (mkfloat 102 1)) = Ok (mkfloat 102 1).
Proof.
  split; [reflexivity|]. split; [reflexivity|].
  apply (version_text_round_trip "10.20.3" (mkfloat 102 1)); reflexivity.
Defined.

(** ** fuser: the mapping it returns *)

Lemma dict_set_fresh {V : Type} (k : string) (v : V) (d : dict V) :
  ~ In k (map fst d) -> dict_set k v d = (d ++ [(k, v)])%list.
Proof.
  induction d as [|[k' v'] d IH]; intros H; simpl; [reflexivity|].
  destruct (String.eqb k k') eqn:E.
  - apply String.eqb_eq in E. subst k'. exfalso. apply H. now left.
  - rewrite IH; [reflexivity|]. intros Hin. apply H. now right.
Qed.

Lemma fuser_loop_mapM (reqs_list : list (list RawEntry)) (todo : list string) :
  NoDup todo -> forall acc,
  (forall p, In p todo -> ~ In p (map fst acc)) ->
  fuser_loop reqs_list todo acc
  = (rs <- mapM (fun p => cs <- fuser_pkg p reqs_list ;; Ok (p, cs)) todo ;;
     Ok (acc ++ rs)%list).
Proof.
  induction 1 as [|p todo Hp Hnd IH]; intros acc Hacc; simpl.
  - now rewrite app_nil_r.
  - destruct (fuser_pkg p reqs_list) as [cs|e]; simpl; [|reflexivity].
    rewrite dict_set_fresh by (apply Hacc; now left).
    rewrite IH.
    + destruct (mapM _ todo); simpl; [|reflexivity].
      now rewrite <- app_assoc.
    + intros q Hq. rewrite map_app, in_app_iff. simpl.
      intros [Hin|[<-|[]]]; [|contradiction].
      apply (Hacc q); [now right | assumption].
Qed.

(** X9. With the packages visited in an order without repetition, the loop
    of [fuser] that assigns into the dict is a map over the packages: the
    mapping has the packages as keys, once each and in that order, each with
    the value its own turn computes, and the first failing turn fails the
    run. *)
Theorem fuser_is_map (order : list string) (reqs_list : list (list RawEntry)) :
  NoDup order ->
  fuser order reqs_list
  = mapM (fun p => cs <- fuser_pkg p reqs_list ;; Ok (p, cs)) order
  /\ forall res, fuser order reqs_list = Ok res ->
       map fst res = order
       /\ forall p cs, In (p, cs) res -> fuser_pkg p reqs_list = Ok cs.
Proof.
  intros Hnd.
  assert (Heq : fuser order reqs_list
                = mapM (fun p => cs <- fuser_pkg p reqs_list ;; Ok (p, cs)) order).
  { unfold fuser. rewrite (fuser_loop_mapM _ _ Hnd []) by (intros p _ []).
    destruct (mapM _ order); reflexivity. }
  split; [exact Heq|]. rewrite Heq. clear Heq Hnd.
  induction order as [|p order IH]; intros res H; simpl in H.
  - inversion H. split; [reflexivity | intros p cs []].
  - apply bind_Ok in H as ([q cs] & Hq & H).
    apply bind_Ok in Hq as (cs' & Hcs & Hq). inversion Hq; subst q cs'.
    apply bind_Ok in H as (rs & Hrs & H). inversion H; subst res.
    destruct (IH _ Hrs) as [Hk Hv]. split.
    + simpl. now rewrite Hk.
    + intros p' cs' [E|Hin]; [inversion E; now subst | now apply Hv].
Qed.

Lemma fuser_is_map_witness :
  NoDup ["wandb"; "pytorch"; "editdistance"]
  /\ fuser ["wandb"; "pytorch"; "editdistance"] docstring_example
     = mapM (fun p => cs <- fuser_pkg p docstring_example ;; Ok (p, cs))
            ["wandb"; "pytorch"; "editdistance"]
  /\ forall res, fuser ["wandb"; "pytorch"; "editdistance"] docstring_example = Ok res ->
       map fst res = ["wandb"; "pytorch"; "editdistance"]
       /\ forall p cs, In (p, cs) res -> fuser_pkg p docstring_example = Ok cs.
Proof.
  assert (H : NoDup ["wandb"; "pytorch"; "editdistance"]).
  { repeat constructor; simpl; intros H;
      repeat (destruct H as [H|H]; [discriminate H|]); exact H. }
  split; [exact H|].
  exact (fuser_is_map ["wandb"; "pytorch"; "editdistance"] docstring_example H).
Defined.

Lemma fuser_pkg_concat (p : string) (reqs_list : list (list RawEntry)) :
  fuser_pkg p [concat reqs_list] = fuser_pkg p reqs_list.
Proof.
  unfold fuser_pkg, versions_of. cbn [concat]. now rewrite app_nil_r.
Qed.

Lemma fuser_loop_concat (reqs_list : list (list RawEntry)) (todo : list string) :
  forall acc,
  fuser_loop [concat reqs_list] todo acc = fuser_loop reqs_list todo acc.
Proof.
  induction todo as [|p todo IH]; intros acc; simpl; [reflexivity|].
  rewrite fuser_pkg_concat. destruct (fuser_pkg p reqs_list); simpl; auto.
Qed.

(** X10. Only the entries count, not the file they come from: fusing
    several sources is fusing their concatenation, and running the program
    on two files gives what it gives on the single file made of the first
    followed by the second. *)
Theorem fuser_of_concatenation (order : list string) :
  (forall reqs_list, fuser order [concat reqs_list] = fuser order reqs_list)
  /\ (forall a b, main order [a ++ String newline b] = main order [a; b]).
Proof.
  split.
  - intros reqs_list. apply fuser_loop_concat.
  - intros a b. unfold main. cbn [mapM]. rewrite parse_lines_app.
    destruct (parse_requirements a) as [x|e]; [|reflexivity]. cbn [bind].
    destruct (parse_requirements b) as [y|e]; [|reflexivity]. cbn [bind].
    unfold fuser.
    rewrite <- (fuser_loop_concat [x; y]), <- (fuser_loop_concat [(x ++ y)%list]).
    cbn [concat]. now rewrite !app_nil_r.
Qed.

(** ** fuser: what two specs or more are resolved to *)

Lemma num_lt_irrefl (a : num) : num_lt a a = false.
Proof. apply num_lt_false, num_le_refl. Qed.

Lemma op_range_step_stored (pkg op : string) (versions : list pyfloat)
  (d d' : dict (num * num)) :
  op_range_step pkg op versions d = Ok d' ->
  exists r, d' = dict_set op r d /\ stored op versions r.
Proof.
  unfold op_range_step, stored, upper_op, lower_op.
  destruct (str_in op ["<="; "<"]) eqn:U.
  { intros H. apply bind_Ok in H as (v & Hv & H). inversion H.
    exists (Int 0, Float v). split; [reflexivity|].
    pose proof (upper_not_lower op U) as L. unfold lower_op in L. rewrite L.
    split; [eauto | discriminate]. }
  destruct (str_in op [">="; ">"]) eqn:L.
  { intros H. apply bind_Ok in H as (v & Hv & H). inversion H.
    exists (Float v, Inf). split; [reflexivity|]. split; [discriminate | eauto]. }
  destruct (String.eqb op "==" && (1 <? List.length (distinct versions))%nat);
    [discriminate|].
  destruct (String.eqb op "==").
  { intros H. apply bind_Ok in H as (v & _ & H). inversion H.
    exists (Float v, Float v). split; [reflexivity|]. split; discriminate. }
  rewrite global_ops_alowed. discriminate.
Qed.

Lemma op_range_loop_get_other (pkg : string) (items : dict (list pyfloat))
  (k : string) :
  forall acc d, op_range_loop pkg items acc = Ok d ->
  ~ In k (map fst items) -> dict_get k d = dict_get k acc.
Proof.
  induction items as [|[op b] items IH]; intros acc d H Hk; simpl in H.
  - now inversion H.
  - apply bind_Ok in H as (acc' & Hstep & H).
    apply op_range_step_Ok in Hstep as (r & -> & _).
    rewrite (IH _ _ H) by (intros Hin; apply Hk; now right).
    apply dict_get_set_other. intros ->. apply Hk. now left.
Qed.

(** With distinct operators, the range of each operator is still in
    [op_range] when the loop ends. *)
Lemma op_range_loop_stored (pkg : string) (items : dict (list pyfloat)) :
  NoDup (map fst items) ->
  forall acc d, op_range_loop pkg items acc = Ok d ->
  forall op b, In (op, b) items ->
  exists r, In (op, r) d /\ stored op b r.
Proof.
  induction items as [|[op0 b0] items IH]; intros Hnd acc d H op b Hin;
    [destruct Hin|].
  simpl in H, Hnd. inversion Hnd as [|? ? Hfresh Hnd']; subst.
  apply bind_Ok in H as (acc' & Hstep & H).
  destruct Hin as [E|Hin]; [|now apply (IH Hnd' _ _ H)].
  inversion E; subst op0 b0.
  apply op_range_step_stored in Hstep as (r & -> & Hr).
  exists r. split; [|exact Hr]. apply dict_get_In.
  rewrite (op_range_loop_get_other _ _ _ _ _ H Hfresh). apply dict_get_set_same.
Qed.

(** The three outcomes of [resolve]: comparing a number with a range list
    is always false, so the inclusive operator is never chosen alone. *)
Lemma resolve_cases (pkg : string) (versions : list pyfloat)
  (d : dict (num * num)) (cs : list (string * value)) (roof floor : num) :
  py_max (map snd (dict_values d)) = Ok roof ->
  py_min (map fst (dict_values d)) = Ok floor ->
  resolve pkg versions d = Ok cs ->
  (num_eq roof Inf = true /\ cs = [(">", VNum floor)])
  \/ (num_eq roof Inf = false /\ num_eq floor (Int 0) = true
      /\ cs = [("<", VNum roof)])
  \/ (num_eq roof Inf = false /\ num_eq floor (Int 0) = false
      /\ cs = [(">=", VNum floor); ("<=", VNum roof)]).
Proof.
  intros Hmax Hmin. unfold resolve. rewrite Hmax, Hmin. cbn [bind].
  destruct (num_lt roof floor); [discriminate|].
  destruct (num_eq roof Inf).
  { intros H. left. split; [reflexivity|].
    destruct (dict_get ">=" d); inversion H; reflexivity. }
  destruct (num_eq floor (Int 0)).
  { intros H. right. left. split; [reflexivity|]. split; [reflexivity|].
    destruct (dict_get "<=" d); inversion H; reflexivity. }
  intros H. right. right. inversion H. auto.
Qed.

(** The ranges, the roof and the floor behind a resolved package. *)
Lemma fuser_pkg_ranges (pkg : string) (reqs_list : list (list RawEntry))
  (versions : list (string * pyfloat)) (cs : list (string * value)) :
  versions_of pkg reqs_list = Ok versions -> (2 <= List.length versions)%nat ->
  fuser_pkg pkg reqs_list = Ok cs ->
  exists d roof floor,
    op_range_loop pkg (versions_by_op versions) [] = Ok d
    /\ py_max (map snd (dict_values d)) = Ok roof
    /\ py_min (map fst (dict_values d)) = Ok floor
    /\ resolve pkg (last_bucket (versions_by_op versions)) d = Ok cs
    /\ forall op, In op (map fst versions) ->
         exists r, In (op, r) d /\ stored op (bucket op versions) r.
Proof.
  intros Hv Hlen Hcs. rewrite (fuser_pkg_many _ _ _ Hv Hlen) in Hcs.
  apply bind_Ok in Hcs as (d & Hd & Hres).
  pose proof Hres as Hres'. unfold resolve in Hres'.
  apply bind_Ok in Hres' as (roof & Hmax & Hres').
  apply bind_Ok in Hres' as (floor & Hmin & _).
  exists d, roof, floor. repeat split; try assumption.
  intros op Hop. apply (op_range_loop_stored pkg (versions_by_op versions)) with (acc := []).
  - rewrite versions_by_op_keys, map_map. simpl. rewrite map_id.
    apply first_keys_NoDup.
  - exact Hd.
  - rewrite versions_by_op_keys. apply in_map_iff. exists op.
    split; [reflexivity | now apply first_keys_In].
Qed.

Lemma in_uppers (d : dict (num * num)) (op : string) (r : num * num) :
  In (op, r) d -> In (snd r) (map snd (dict_values d)).
Proof. intros H. apply (in_map snd), (in_map snd) in H. exact H. Qed.

Lemma in_lowers (d : dict (num * num)) (op : string) (r : num * num) :
  In (op, r) d -> In (fst r) (map fst (dict_values d)).
Proof. intros H. apply (in_map snd), (in_map fst) in H. exact H. Qed.

(** X11. In every mapping [fuser] returns, a package with two versioned
    specs or more, one of them a lower bound ([>=] or [>]), holds the single
    clause [>floor]: the operator is the exclusive one whatever the specs
    say, and an upper bound of the package is dropped.  The floor is at most
    the greatest version of each lower-bound operator, and zero when the
    package has an upper bound. *)
Theorem fuser_lower_bound_entry (order : list string)
  (reqs_list : list (list RawEntry)) (res : dict (list (string * value)))
  (pkg : string) (versions : list (string * pyfloat)) :
  fuser order reqs_list = Ok res -> In pkg order ->
  versions_of pkg reqs_list = Ok versions -> (2 <= List.length versions)%nat ->
  (exists op, In op (map fst versions) /\ lower_op op = true) ->
  exists floor,
    In (pkg, [(">", VNum floor)]) res
    /\ line_of (pkg, [(">", VNum floor)]) = pkg ++ ">" ++ repr_num floor
    /\ (forall op, In op (map fst versions) -> lower_op op = true ->
        exists v, final (bucket op versions) = Ok v /\ num_le floor (Float v))
    /\ ((exists op, In op (map fst versions) /\ upper_op op = true) ->
        num_eq floor (Int 0) = true).
Proof.
  intros Hres Hin Hv Hlen Hlow.
  destruct (fuser_lookup _ _ _ _ Hres Hin) as (cs & Hcs & Hget).
  destruct (fuser_pkg_lower_bound _ _ _ _ Hv Hlen Hcs Hlow) as (floor' & Hfl & Hzero).
  destruct (fuser_pkg_ranges _ _ _ _ Hv Hlen Hcs)
    as (d & roof & floor & Hd & Hmax & Hmin & Hresolve & Hst).
  assert (Hsame : floor' = floor).
  { destruct (resolve_cases _ _ _ _ _ _ Hmax Hmin Hresolve)
      as [[_ E]|[(_ & _ & E)|(_ & _ & E)]]; rewrite Hfl in E; now inversion E. }
  subst floor' cs. exists floor.
  split; [now apply dict_get_In|]. split; [reflexivity|]. split; [|exact Hzero].
  intros op Hop Hl. destruct (Hst op Hop) as (r & Hr & _ & Hlo).
  destruct (Hlo Hl) as (v & Hfinal & ->). exists v. split; [exact Hfinal|].
  apply py_min_spec in Hmin as [_ Hmin]. apply Hmin.
  exact (in_lowers _ _ _ Hr).
Qed.

Lemma fuser_lower_bound_entry_witness :
  fuser ["pkgA"] disjoint_bounds = Ok [("pkgA", [(">", VNum (Int 0))])]
  /\ In "pkgA" ["pkgA"]
  /\ versions_of "pkgA" disjoint_bounds = Ok disjoint_versions
  /\ (2 <= List.length disjoint_versions)%nat
  /\ (exists op, In op (map fst disjoint_versions) /\ lower_op op = true)
  /\ exists floor,
       In ("pkgA", [(">", VNum floor)]) [("pkgA", [(">", VNum (Int 0))])]
       /\ line_of ("pkgA", [(">", VNum floor)]) = "pkgA" ++ ">" ++ repr_num floor
       /\ (forall op, In op (map fst disjoint_versions) -> lower_op op = true ->
           exists v, final (bucket op disjoint_versions) = Ok v
                     /\ num_le floor (Float v))
       /\ ((exists op, In op (map fst disjoint_versions) /\ upper_op op = true) ->
           num_eq floor (Int 0) = true).
Proof.
  assert (H1 : fuser ["pkgA"] disjoint_bounds = Ok [("pkgA", [(">", VNum (Int 0))])])
    by reflexivity.
  assert (H2 : In "pkgA" ["pkgA"]) by (now left).
  assert (H3 : versions_of "pkgA" disjoint_bounds = Ok disjoint_versions) by reflexivity.
  assert (H4 : (2 <= List.length disjoint_versions)%nat) by (simpl; lia).
  assert (H5 : exists op, In op (map fst disjoint_versions) /\ lower_op op = true).
  { exists ">". split; [right; now left | reflexivity]. }
  repeat (split; [assumption|]).
  exact (fuser_lower_bound_entry _ _ _ _ _ H1 H2 H3 H4 H5).
Defined.

(** X12. In every mapping [fuser] returns, a package with two versioned
    specs or more, an upper bound among them and no lower bound, all on
    versions that [float] keeps exactly (so that none overflows to [inf]),
    holds the single clause [<roof] with the exclusive operator, and [roof]
    is at least the least version of each upper-bound operator: the loosest
    of the bounds, not the tightest. *)
Theorem fuser_upper_bound_entry (order : list string)
  (reqs_list : list (list RawEntry)) (res : dict (list (string * value)))
  (pkg : string) (versions : list (string * pyfloat)) :
  fuser order reqs_list = Ok res -> In pkg order ->
  versions_of pkg reqs_list = Ok versions -> (2 <= List.length versions)%nat ->
  (forall op v, In (op, v) versions -> binary64_exact v = true) ->
  (forall op, In op (map fst versions) -> lower_op op = false) ->
  (exists op, In op (map fst versions) /\ upper_op op = true) ->
  exists roof,
    In (pkg, [("<", VNum (Float roof))]) res
    /\ line_of (pkg, [("<", VNum (Float roof))]) = pkg ++ "<" ++ repr_float roof
    /\ forall op, In op (map fst versions) -> upper_op op = true ->
       exists v, first (bucket op versions) = Ok v /\ num_le (Float v) (Float roof).
Proof.
  intros Hres Hin Hv Hlen _ Hnolow Hup.
  destruct (fuser_lookup _ _ _ _ Hres Hin) as (cs & Hcs & Hget).
  destruct (fuser_pkg_upper_only _ _ _ _ Hv Hlen Hcs Hnolow Hup) as (roof' & Hcs').
  destruct (fuser_pkg_ranges _ _ _ _ Hv Hlen Hcs)
    as (d & roof & floor & Hd & Hmax & Hmin & Hresolve & Hst).
  assert (Hsame : roof = Float roof').
  { destruct (resolve_cases _ _ _ _ _ _ Hmax Hmin Hresolve)
      as [[_ E]|[(_ & _ & E)|(_ & _ & E)]]; rewrite Hcs' in E; now inversion E. }
  subst roof cs. exists roof'.
  split; [now apply dict_get_In|]. split; [reflexivity|].
  intros op Hop Hu. destruct (Hst op Hop) as (r & Hr & Hupper & _).
  destruct (Hupper Hu) as (v & Hfirst & ->). exists v. split; [exact Hfirst|].
  apply py_max_spec in Hmax as [_ Hmax]. apply Hmax.
  exact (in_uppers _ _ _ Hr).
Qed.

Lemma fuser_upper_bound_entry_witness :
  fuser ["pkgA"] [[("pkgA", "<=", "5.0")]; [("pkgA", "<", "6.0")]]
    = Ok [("pkgA", [("<", VNum (Float (mkfloat 6 0)))])]
  /\ In "pkgA" ["pkgA"]
  /\ versions_of "pkgA" [[("pkgA", "<=", "5.0")]; [("pkgA", "<", "6.0")]]
     = Ok [("<=", mkfloat 5 0); ("<", mkfloat 6 0)]
  /\ (2 <= List.length [("<=", mkfloat 5 0); ("<", mkfloat 6 0)])%nat
  /\ (forall op v, In (op, v) [("<=", mkfloat 5 0); ("<", mkfloat 6 0)] ->
        binary64_exact v = true)
  /\ (forall op, In op (map fst [("<=", mkfloat 5 0); ("<", mkfloat 6 0)]) ->
        lower_op op = false)
  /\ (exists op, In op (map fst [("<=", mkfloat 5 0); ("<", mkfloat 6 0)])
                 /\ upper_op op = true)
  /\ exists roof,
       In ("pkgA", [("<", VNum (Float roof))])
          [("pkgA", [("<", VNum (Float (mkfloat 6 0)))])]
       /\ line_of ("pkgA", [("<", VNum (Float roof))])
          = "pkgA" ++ "<" ++ repr_float roof
       /\ forall op, In op (map fst [("<=", mkfloat 5 0); ("<", mkfloat 6 0)]) ->
          upper_op op = true ->
          exists v, first (bucket op [("<=", mkfloat 5 0); ("<", mkfloat 6 0)]) = Ok v
                    /\ num_le (Float v) (Float roof).
Proof.
  assert (H1 : fuser ["pkgA"] [[("pkgA", "<=", "5.0")]; [("pkgA", "<", "6.0")]]
               = Ok [("pkgA", [("<", VNum (Float (mkfloat 6 0)))])]) by reflexivity.
  assert (H2 : In "pkgA" ["pkgA"]) by (now left).
  assert (H3 : versions_of "pkgA" [[("pkgA", "<=", "5.0")]; [("pkgA", "<", "6.0")]]
               = Ok [("<=", mkfloat 5 0); ("<", mkfloat 6 0)]) by reflexivity.
  assert (H4 : (2 <= List.length [("<=", mkfloat 5 0); ("<", mkfloat 6 0)])%nat)
    by (simpl; lia).
  assert (H5 : forall op, In op (map fst [("<=", mkfloat 5 0); ("<", mkfloat 6 0)]) ->
                 lower_op op = false).
  { simpl. intros op [<-|[<-|[]]]; reflexivity. }
  assert (H6 : exists op, In op (map fst [("<=", mkfloat 5 0); ("<", mkfloat 6 0)])
                          /\ upper_op op = true).
  { exists "<". split; [right; now left | reflexivity]. }
  assert (Hx : forall op v, In (op, v) [("<=", mkfloat 5 0); ("<", mkfloat 6 0)] ->
                 binary64_exact v = true).
  { intros op v [E|[E|[]]]; inversion E; reflexivity. }
  repeat (split; [assumption|]).
  exact (fuser_upper_bound_entry _ _ _ _ _ H1 H2 H3 H4 Hx H5 H6).
Defined.

(** ** fuser: pins *)

Lemma op_range_step_pin (pkg : string) (b : list pyfloat) (v : pyfloat)
  (d : dict (num * num)) :
  (List.length (distinct b) <= 1)%nat -> first b = Ok v ->
  op_range_step pkg "==" b d = Ok (dict_set "==" (Float v, Float v) d).
Proof.
  intros Hone Hv. apply Nat.ltb_ge in Hone.
  unfold op_range_step. rewrite Hv. simpl. now rewrite Hone.
Qed.

(** Pins only, that agree: the package is resolved to the closed range
    around the pinned version, or to [<0.0] when that version is zero. *)
Lemma fuser_pkg_pins (pkg : string) (reqs_list : list (list RawEntry))
  (versions : list (string * pyfloat)) :
  versions_of pkg reqs_list = Ok versions -> (2 <= List.length versions)%nat ->
  (forall op, In op (map fst versions) -> op = "==") ->
  (List.length (distinct (bucket "==" versions)) <= 1)%nat ->
  exists v,
    In ("==", v) versions
    /\ fuser_pkg pkg reqs_list
       = Ok (if num_eq (Float v) (Int 0) then [("<", VNum (Float v))]
             else [(">=", VNum (Float v)); ("<=", VNum (Float v))]).
Proof.
  intros Hv Hlen Hall Hone.
  assert (Hne : map fst versions <> []).
  { destruct versions; [simpl in Hlen; lia | discriminate]. }
  assert (Hkeys : first_keys (map fst versions) = ["=="]).
  { apply (set_order_single "==" (map fst versions)); try assumption.
    split; [apply first_keys_NoDup | apply first_keys_In]. }
  assert (Hin : In "==" (map fst versions)).
  { apply first_keys_In. rewrite Hkeys. now left. }
  destruct (first_total _ (bucket_not_nil _ _ Hin)) as (v & Hfirst).
  exists v. split.
  - apply bucket_In. destruct (bucket "==" versions); inversion Hfirst. now left.
  - rewrite (fuser_pkg_many _ _ _ Hv Hlen), versions_by_op_keys, Hkeys.
    cbn [map op_range_loop]. rewrite (op_range_step_pin _ _ _ _ Hone Hfirst).
    cbn [bind dict_set]. unfold resolve.
    cbn [dict_values map py_max py_min fold_left fst snd bind].
    rewrite num_lt_irrefl.
    change (num_eq (Float v) Inf) with false. cbv iota.
    destruct (num_eq (Float v) (Int 0)); reflexivity.
Qed.

(** X13. Two sources or more that pin a package to one and the same
    version, a version that [float] keeps exactly (so that it neither
    overflows to [inf] nor underflows to zero), do not keep the pin: in every
    mapping [fuser] returns the package holds the closed range [>=v,<=v]
    when [v] is not zero, and the single clause [<v] when it is. *)
Theorem fuser_agreeing_pins_entry (order : list string)
  (reqs_list : list (list RawEntry)) (res : dict (list (string * value)))
  (pkg : string) (versions : list (string * pyfloat)) :
  fuser order reqs_list = Ok res -> In pkg order ->
  versions_of pkg reqs_list = Ok versions -> (2 <= List.length versions)%nat ->
  (forall op v, In (op, v) versions -> binary64_exact v = true) ->
  (forall op, In op (map fst versions) -> op = "==") ->
  (List.length (distinct (bucket "==" versions)) <= 1)%nat ->
  exists v,
    In ("==", v) versions
    /\ (num_eq (Float v) (Int 0) = false ->
        In (pkg, [(">=", VNum (Float v)); ("<=", VNum (Float v))]) res
        /\ line_of (pkg, [(">=", VNum (Float v)); ("<=", VNum (Float v))])
           = pkg ++ ">=" ++ repr_float v ++ ",<=" ++ repr_float v)
    /\ (num_eq (Float v) (Int 0) = true ->
        In (pkg, [("<", VNum (Float v))]) res).
Proof.
  intros Hres Hin Hv Hlen _ Hall Hone.
  destruct (fuser_lookup _ _ _ _ Hres Hin) as (cs & Hcs & Hget).
  destruct (fuser_pkg_pins _ _ _ Hv Hlen Hall Hone) as (v & Hvin & Hpins).
  exists v. split; [exact Hvin|]. rewrite Hcs in Hpins. apply dict_get_In in Hget.
  split; intros Hz; rewrite Hz in Hpins; inversion Hpins; subst cs.
  - split; [exact Hget | reflexivity].
  - exact Hget.
Qed.

Lemma fuser_agreeing_pins_entry_witness :
  fuser ["pkgA"] twice_pinned
    = Ok [("pkgA", [(">=", VNum (Float (mkfloat 32 1)));
                    ("<=", VNum (Float (mkfloat 32 1)))])]
  /\ In "pkgA" ["pkgA"]
  /\ versions_of "pkgA" twice_pinned = Ok [("==", mkfloat 32 1); ("==", mkfloat 32 1)]
  /\ (2 <= List.length [("==", mkfloat 32 1); ("==", mkfloat 32 1)])%nat
  /\ (forall op v, In (op, v) [("==", mkfloat 32 1); ("==", mkfloat 32 1)] ->
        binary64_exact v = true)
  /\ (forall op, In op (map fst [("==", mkfloat 32 1); ("==", mkfloat 32 1)]) ->
        op = "==")
  /\ (List.length
        (distinct (bucket "==" [("==", mkfloat 32 1); ("==", mkfloat 32 1)])) <= 1)%nat
  /\ exists v,
       In ("==", v) [("==", mkfloat 32 1); ("==", mkfloat 32 1)]
       /\ (num_eq (Float v) (Int 0) = false ->
           In ("pkgA", [(">=", VNum (Float v)); ("<=", VNum (Float v))])
              [("pkgA", [(">=", VNum (Float (mkfloat 32 1)));
                         ("<=", VNum (Float (mkfloat 32 1)))])]
           /\ line_of ("pkgA", [(">=", VNum (Float v)); ("<=", VNum (Float v))])
              = "pkgA" ++ ">=" ++ repr_float v ++ ",<=" ++ repr_float v)
       /\ (num_eq (Float v) (Int 0) = true ->
           In ("pkgA", [("<", VNum (Float v))])
              [("pkgA", [(">=", VNum (Float (mkfloat 32 1)));
                         ("<=", VNum (Float (mkfloat 32 1)))])]).
Proof.
  assert (H1 : fuser ["pkgA"] twice_pinned
               = Ok [("pkgA", [(">=", VNum (Float (mkfloat 32 1)));
                               ("<=", VNum (Float (mkfloat 32 1)))])]) by reflexivity.
  assert (H2 : In "pkgA" ["pkgA"]) by (now left).
  assert (H3 : versions_of "pkgA" twice_pinned
               = Ok [("==", mkfloat 32 1); ("==", mkfloat 32 1)]) by reflexivity.
  assert (H4 : (2 <= List.length [("==", mkfloat 32 1); ("==", mkfloat 32 1)])%nat)
    by (simpl; lia).
  assert (H5 : forall op, In op (map fst [("==", mkfloat 32 1); ("==", mkfloat 32 1)]) ->
                 op = "==").
  { simpl. intros op [<-|[<-|[]]]; reflexivity. }
  assert (H6 : (List.length
                  (distinct (bucket "==" [("==", mkfloat 32 1); ("==", mkfloat 32 1)]))
                <= 1)%nat) by (vm_compute; lia).
  assert (Hx : forall op v, In (op, v) [("==", mkfloat 32 1); ("==", mkfloat 32 1)] ->
                 binary64_exact v = true).
  { intros op v [E|[E|[]]]; inversion E; reflexivity. }
  repeat (split; [assumption|]).
  exact (fuser_agreeing_pins_entry _ _ _ _ _ H1 H2 H3 H4 Hx H5 H6).
Defined.

Lemma op_range_step_Ok_op (pkg op : string) (b : list pyfloat)
  (d d' : dict (num * num)) :
  op_range_step pkg op b d = Ok d' ->
  upper_op op = true \/ lower_op op = true
  \/ (op = "==" /\ (List.length (distinct b) <= 1)%nat).
Proof.
  unfold op_range_step, upper_op, lower_op.
  destruct (str_in op ["<="; "<"]); [now left|].
  destruct (str_in op [">="; ">"]); [right; now left|].
  destruct (String.eqb op "==") eqn:E; cbn [andb].
  - destruct (1 <? List.length (distinct b))%nat eqn:L; [discriminate|].
    intros _. right. right. split; [now apply String.eqb_eq | now apply Nat.ltb_ge].
  - rewrite global_ops_alowed. discriminate.
Qed.

Lemma op_range_loop_items (pkg : string) (items : dict (list pyfloat)) :
  forall acc d, op_range_loop pkg items acc = Ok d ->
  forall op b, In (op, b) items ->
  upper_op op = true \/ lower_op op = true
  \/ (op = "==" /\ (List.length (distinct b) <= 1)%nat).
Proof.
  induction items as [|[op0 b0] items IH]; intros acc d H op b Hin; [destruct Hin|].
  simpl in H. apply bind_Ok in H as (acc' & Hstep & H).
  destruct Hin as [E|Hin]; [|now apply (IH _ _ H)].
  inversion E; subst. now apply (op_range_step_Ok_op pkg op b acc acc').
Qed.

(** X14. A closed range comes from pins only: in a mapping [fuser] returns,
    a package that holds two clauses has two versioned specs or more, all of
    them pins [==] of one version [v], and the clauses are [>=v] and
    [<=v]. *)
Theorem fuser_closed_range_entry (order : list string)
  (reqs_list : list (list RawEntry)) (res : dict (list (string * value)))
  (pkg : string) (cs : list (string * value)) :
  fuser order reqs_list = Ok res -> In pkg order ->
  dict_get pkg res = Some cs -> List.length cs = 2%nat ->
  exists versions v,
    versions_of pkg reqs_list = Ok versions
    /\ (2 <= List.length versions)%nat
    /\ (forall op, In op (map fst versions) -> op = "==")
    /\ In ("==", v) versions
    /\ cs = [(">=", VNum (Float v)); ("<=", VNum (Float v))].
Proof.
  intros Hres Hin Hget Hlen.
  destruct (fuser_lookup _ _ _ _ Hres Hin) as (cs' & Hcs & Hget').
  rewrite Hget in Hget'. inversion Hget'; subst cs'. clear Hget'.
  pose proof Hcs as Hpkg. unfold fuser_pkg in Hpkg.
  apply bind_Ok in Hpkg as (versions & Hv & Hpkg).
  assert (Hlen2 : (2 <= List.length versions)%nat).
  { destruct versions as [|[o1 v1] [|ov rest]]; simpl; try lia;
      inversion Hpkg; subst cs; discriminate Hlen. }
  clear Hpkg.
  assert (Hnolow : forall op, In op (map fst versions) -> lower_op op = false).
  { intros op Hop. destruct (lower_op op) eqn:E; [|reflexivity].
    destruct (fuser_pkg_lower_bound _ _ _ _ Hv Hlen2 Hcs) as (fl & -> & _);
      [eauto | discriminate Hlen]. }
  assert (Hnoup : forall op, In op (map fst versions) -> upper_op op = false).
  { intros op Hop. destruct (upper_op op) eqn:E; [|reflexivity].
    destruct (fuser_pkg_upper_only _ _ _ _ Hv Hlen2 Hcs Hnolow) as (rf & ->);
      [eauto | discriminate Hlen]. }
  destruct (fuser_pkg_ranges _ _ _ _ Hv Hlen2 Hcs) as (d & _ & _ & Hd & _).
  assert (Hitems : forall op, In op (map fst versions) ->
            op = "==" /\ (List.length (distinct (bucket op versions)) <= 1)%nat).
  { intros op Hop.
    assert (Hitem : In (op, bucket op versions) (versions_by_op versions)).
    { rewrite versions_by_op_keys. apply in_map_iff. exists op.
      split; [reflexivity | now apply first_keys_In]. }
    destruct (op_range_loop_items _ _ _ _ Hd _ _ Hitem) as [U|[L|H]];
      [rewrite (Hnoup op Hop) in U; discriminate
      | rewrite (Hnolow op Hop) in L; discriminate | exact H]. }
  assert (Hall : forall op, In op (map fst versions) -> op = "==")
    by (intros op Hop; apply (Hitems op Hop)).
  assert (Hone : (List.length (distinct (bucket "==" versions)) <= 1)%nat).
  { destruct versions as [|[o1 v1] rest]; [simpl in Hlen2; lia|].
    assert (Ho : In o1 (map fst ((o1, v1) :: rest))) by (now left).
    destruct (Hitems o1 Ho) as [-> H]. exact H. }
  destruct (fuser_pkg_pins _ _ _ Hv Hlen2 Hall Hone) as (v & Hvin & Hpins).
  exists versions, v. repeat split; try assumption.
  rewrite Hcs in Hpins. inversion Hpins as [E].
  destruct (num_eq (Float v) (Int 0)); [subst cs; discriminate Hlen | reflexivity].
Qed.

Lemma fuser_closed_range_entry_witness :
  fuser ["pkgA"] twice_pinned
    = Ok [("pkgA", [(">=", VNum (Float (mkfloat 32 1)));
                    ("<=", VNum (Float (mkfloat 32 1)))])]
  /\ In "pkgA" ["pkgA"]
  /\ dict_get "pkgA" [("pkgA", [(">=", VNum (Float (mkfloat 32 1)));
                                ("<=", VNum (Float (mkfloat 32 1)))])]
     = Some [(">=", VNum (Float (mkfloat 32 1))); ("<=", VNum (Float (mkfloat 32 1)))]
  /\ List.length [(">=", VNum (Float (mkfloat 32 1)));
                  ("<=", VNum (Float (mkfloat 32 1)))] = 2%nat
  /\ exists versions v,
       versions_of "pkgA" twice_pinned = Ok versions
       /\ (2 <= List.length versions)%nat
       /\ (forall op, In op (map fst versions) -> op = "==")
       /\ In ("==", v) versions
       /\ [(">=", VNum (Float (mkfloat 32 1))); ("<=", VNum (Float (mkfloat 32 1)))]
          = [(">=", VNum (Float v)); ("<=", VNum (Float v))].
Proof.
  assert (H1 : fuser ["pkgA"] twice_pinned
               = Ok [("pkgA", [(">=", VNum (Float (mkfloat 32 1)));
                               ("<=", VNum (Float (mkfloat 32 1)))])]) by reflexivity.
  assert (H2 : In "pkgA" ["pkgA"]) by (now left).
  assert (H3 : dict_get "pkgA" [("pkgA", [(">=", VNum (Float (mkfloat 32 1)));
                                          ("<=", VNum (Float (mkfloat 32 1)))])]
               = Some [(">=", VNum (Float (mkfloat 32 1)));
                       ("<=", VNum (Float (mkfloat 32 1)))]) by reflexivity.
  assert (H4 : List.length [(">=", VNum (Float (mkfloat 32 1)));
                            ("<=", VNum (Float (mkfloat 32 1)))] = 2%nat) by reflexivity.
  repeat (split; [assumption|]).
  exact (fuser_closed_range_entry _ _ _ _ _ H1 H2 H3 H4).
Defined.

(** ** fuser: failures *)

Lemma version_number_to_float_Raise (v : string) (e : exn) :
  version_number_to_float v = Raise e ->
  e = TypeError "'NoneType' object is not subscriptable".
Proof.
  unfold version_number_to_float. destruct (major_minor v) as [[i f]|];
    [discriminate | intros H; now inversion H].
Qed.

Lemma versions_of_Raise (pkg : string) (reqs_list : list (list RawEntry)) (e : exn) :
  versions_of pkg reqs_list = Raise e ->
  e = TypeError "'NoneType' object is not subscriptable".
Proof.
  unfold versions_of. intros H. apply mapM_Raise_inv in H as (item & _ & H).
  destruct (version_number_to_float (version_of item)) as [v|e'] eqn:E;
    [discriminate|].
  inversion H; subst e'. now apply (version_number_to_float_Raise _ _ E).
Qed.

(** X15. A versioned spec whose version has no [major.minor] prefix (as in
    [pkg==3]) makes the turn of its package raise [TypeError], also when it
    is the only spec of the package, and the run raises it once the packages
    visited earlier have fused. *)
Theorem fuser_version_without_minor (pkg : string)
  (reqs_list : list (list RawEntry)) (item : RawEntry) :
  In item (concat reqs_list) -> versioned pkg item = true ->
  major_minor (version_of item) = None ->
  fuser_pkg pkg reqs_list = Raise (TypeError "'NoneType' object is not subscriptable")
  /\ forall before after,
       (forall p, In p before -> exists vs, fuser_pkg p reqs_list = Ok vs) ->
       fuser (before ++ pkg :: after) reqs_list
       = Raise (TypeError "'NoneType' object is not subscriptable").
Proof.
  intros Hin Hver Hmm.
  assert (Hpkg : fuser_pkg pkg reqs_list
                 = Raise (TypeError "'NoneType' object is not subscriptable")).
  { unfold fuser_pkg.
    destruct (versions_of pkg reqs_list) as [versions|e] eqn:Hv.
    - exfalso. unfold versions_of in Hv.
      assert (Hf : In item (filter (versioned pkg) (concat reqs_list)))
        by (apply filter_In; auto).
      destruct (mapM_Ok_In _ _ _ Hv _ Hf) as (ov & Hov & _).
      unfold version_number_to_float in Hov. rewrite Hmm in Hov. discriminate.
    - cbn [bind]. now rewrite (versions_of_Raise _ _ _ Hv). }
  split; [exact Hpkg|]. intros before after Hb. now apply fuser_first_failure.
Qed.

Lemma fuser_version_without_minor_witness :
  In ("pkgA", "==", "3") (concat [[("pkgA", "==", "3")]])
  /\ versioned "pkgA" ("pkgA", "==", "3") = true
  /\ major_minor (version_of ("pkgA", "==", "3")) = None
  /\ fuser_pkg "pkgA" [[("pkgA", "==", "3")]]
     = Raise (TypeError "'NoneType' object is not subscriptable")
  /\ forall before after,
       (forall p, In p before ->
          exists vs, fuser_pkg p [[("pkgA", "==", "3")]] = Ok vs) ->
       fuser (before ++ "pkgA" :: after) [[("pkgA", "==", "3")]]
       = Raise (TypeError "'NoneType' object is not subscriptable").
Proof.
  assert (H1 : In ("pkgA", "==", "3") (concat [[("pkgA", "==", "3")]]))
    by (now left).
  assert (H2 : versioned "pkgA" ("pkgA", "==", "3") = true) by reflexivity.
  assert (H3 : major_minor (version_of ("pkgA", "==", "3")) = None) by reflexivity.
  repeat (split; [assumption|]).
  exact (fuser_version_without_minor "pkgA" _ _ H1 H2 H3).
Defined.

Lemma op_range_step_Raise (pkg op : string) (b : list pyfloat)
  (d : dict (num * num)) (e : exn) :
  b <> [] -> op_range_step pkg op b d = Raise e ->
  e = DependencyConflictError (dependency_conflict_error_msg pkg (VList (map Float b)))
  \/ e = NameError "name 'alowed_ops' is not defined".
Proof.
  intros Hne.
  destruct (first_total _ Hne) as (v0 & Hv0).
  destruct (final_total _ Hne) as (v1 & Hv1).
  unfold op_range_step. rewrite Hv0, Hv1.
  destruct (str_in op ["<="; "<"]); [discriminate|].
  destruct (str_in op [">="; ">"]); [discriminate|].
  destruct (String.eqb op "==" && (1 <? List.length (distinct b))%nat).
  { intros H. left. now inversion H. }
  destruct (String.eqb op "=="); [discriminate|].
  rewrite global_ops_alowed. intros H. right. now inversion H.
Qed.

Lemma op_range_loop_Raise (pkg : string) (items : dict (list pyfloat)) (e : exn) :
  forall acc, op_range_loop pkg items acc = Raise e ->
  exists op b acc', In (op, b) items /\ op_range_step pkg op b acc' = Raise e.
Proof.
  induction items as [|[op b] items IH]; intros acc H; simpl in H; [discriminate|].
  destruct (op_range_step pkg op b acc) as [acc'|e'] eqn:Hstep; simpl in H.
  - destruct (IH _ H) as (op' & b' & a' & Hin & Hs).
    exists op', b', a'. split; [now right | assumption].
  - inversion H; subst e'. exists op, b, acc. split; [now left | assumption].
Qed.

Lemma fuser_pkg_Raise (pkg : string) (reqs_list : list (list RawEntry)) (e : exn) :
  fuser_pkg pkg reqs_list = Raise e ->
  e = TypeError "'NoneType' object is not subscriptable"
  \/ (exists versions,
        e = DependencyConflictError
              (dependency_conflict_error_msg pkg (VList (map Float versions))))
  \/ e = NameError "name 'alowed_ops' is not defined".
Proof.
  intros H. unfold fuser_pkg in H.
  destruct (versions_of pkg reqs_list) as [versions|e'] eqn:Hv; cbn [bind] in H.
  - destruct versions as [|[o1 v1] [|ov rest]]; try discriminate H.
    set (vs := (o1, v1) :: ov :: rest) in *.
    destruct (op_range_loop pkg (versions_by_op vs) []) as [d|e'] eqn:Hd;
      cbn [bind] in H.
    + exfalso.
      destruct (op_range_loop_Ok _ _ _ _ Hd) as [Hw Hn]; [intros k r []|].
      assert (Hne : d <> []).
      { apply Hn. right. apply versions_by_op_not_nil. discriminate. }
      destruct (resolve_no_conflict pkg (last_bucket (versions_by_op vs)) d Hw Hne)
        as (_ & _ & _ & _ & _ & cs & Hc).
      congruence.
    + inversion H; subst e'.
      apply op_range_loop_Raise in Hd as (op & b & acc & Hin & Hstep).
      apply versions_by_op_item in Hin as [Hop ->].
      destruct (op_range_step_Raise _ _ _ _ _ (bucket_not_nil _ _ Hop) Hstep)
        as [->| ->]; [right; left; eauto | right; now right].
  - inversion H; subst e'. left. now apply (versions_of_Raise _ _ _ Hv).
Qed.

Lemma fuser_loop_Raise (reqs_list : list (list RawEntry)) (todo : list string)
  (e : exn) :
  forall acc, fuser_loop reqs_list todo acc = Raise e ->
  exists p, In p todo /\ fuser_pkg p reqs_list = Raise e.
Proof.
  induction todo as [|p todo IH]; intros acc H; simpl in H; [discriminate|].
  destruct (fuser_pkg p reqs_list) as [cs|e'] eqn:Hp; simpl in H.
  - destruct (IH _ H) as (q & Hq & Hf). exists q. split; [now right | assumption].
  - inversion H; subst e'. exists p. split; [now left | assumption].
Qed.

(** X16. When [fuser] fails, the exception comes from the turn of one of
    the packages and is the [TypeError] of a version without [major.minor],
    a [DependencyConflictError] naming that package, or the [NameError] of
    the unsupported-operator branch.  Indexing a bucket, [max] and [min]
    never fail: no [IndexError], no [ValueError]. *)
Theorem fuser_exceptions (order : list string) (reqs_list : list (list RawEntry))
  (e : exn) :
  fuser order reqs_list = Raise e ->
  exists pkg,
    In pkg order /\ fuser_pkg pkg reqs_list = Raise e
    /\ (e = TypeError "'NoneType' object is not subscriptable"
        \/ (exists versions,
              e = DependencyConflictError
                    (dependency_conflict_error_msg pkg (VList (map Float versions))))
        \/ e = NameError "name 'alowed_ops' is not defined").
Proof.
  intros H. unfold fuser in H. apply fuser_loop_Raise in H as (pkg & Hin & Hpkg).
  exists pkg. split; [exact Hin|]. split; [exact Hpkg|].
  exact (fuser_pkg_Raise _ _ _ Hpkg).
Qed.

Lemma fuser_exceptions_witness :
  fuser ["pkgA"] [[("pkgA", "==", "3.2")]; [("pkgA", "==", "4.0")]]
    = Raise (DependencyConflictError
               "dependency conflict for package 'pkgA' with versions [3.2, 4.0]")
  /\ exists pkg,
       In pkg ["pkgA"]
       /\ fuser_pkg pkg [[("pkgA", "==", "3.2")]; [("pkgA", "==", "4.0")]]
          = Raise (DependencyConflictError
                     "dependency conflict for package 'pkgA' with versions [3.2, 4.0]")
       /\ (DependencyConflictError
             "dependency conflict for package 'pkgA' with versions [3.2, 4.0]"
           = TypeError "'NoneType' object is not subscriptable"
           \/ (exists versions,
                 DependencyConflictError
                   "dependency conflict for package 'pkgA' with versions [3.2, 4.0]"
                 = DependencyConflictError
                     (dependency_conflict_error_msg pkg (VList (map Float versions))))
           \/ DependencyConflictError
                "dependency conflict for package 'pkgA' with versions [3.2, 4.0]"
              = NameError "name 'alowed_ops' is not defined").
Proof.
  assert (H1 : fuser ["pkgA"] [[("pkgA", "==", "3.2")]; [("pkgA", "==", "4.0")]]
               = Raise (DependencyConflictError
                          "dependency conflict for package 'pkgA' with versions [3.2, 4.0]"))
    by reflexivity.
  split; [exact H1|].
  exact (fuser_exceptions _ _ _ H1).
Defined.

(** ** validate_arguments and the main program *)

Lemma validate_inputs_Returned (fs : files) (inputs : list string) :
  validate_inputs fs inputs = Returned <->
  forall i, In i inputs -> isfile fs i = true.
Proof.
  induction inputs as [|p rest IH]; simpl; [split; [intros _ i [] | reflexivity]|].
  destruct (isfile fs p) eqn:E; simpl.
  - rewrite IH. split.
    + intros H i [<-|Hi]; auto.
    + intros H i Hi. apply H. now right.
  - split; [discriminate|]. intros H. specialize (H p (or_introl eq_refl)). congruence.
Qed.

(** X17. [validate_arguments] returns exactly when every input is a file
    and the output, if one is given and is an existing file, may be
    overwritten. *)
Theorem validate_arguments_returns_iff (fs : files) (inputs : list string)
  (output : option string) (overwrite : bool) :
  validate_arguments fs inputs output overwrite = Returned <->
  (forall i, In i inputs -> isfile fs i = true)
  /\ (forall o, output = Some o -> isfile fs o = true -> overwrite = true).
Proof.
  unfold validate_arguments.
  destruct (validate_inputs fs inputs) eqn:Hin.
  - pose proof (proj1 (validate_inputs_Returned fs inputs) Hin) as Hall.
    destruct output as [o|].
    + destruct (isfile fs o) eqn:Ho; destruct overwrite; simpl.
      * split; [|reflexivity]. intros _. split; [exact Hall | reflexivity].
      * split; [discriminate|]. intros [_ H].
        specialize (H o eq_refl Ho). discriminate.
      * split; [|reflexivity]. intros _. split; [exact Hall | reflexivity].
      * split; [|reflexivity]. intros _. split; [exact Hall|].
        intros o' E Ho'. inversion E; subst o'. congruence.
    + split; [|reflexivity]. intros _. split; [exact Hall | discriminate].
  - split; [discriminate|]. intros [H _].
    apply (proj2 (validate_inputs_Returned fs inputs)) in H. congruence.
Qed.

(** X18. The inputs are checked first and in order: the first input that is
    not a file is the one named by the [FileNotFoundError], whatever the
    output and the inputs after it. *)
Theorem validate_arguments_first_missing (fs : files) (before after : list string)
  (p : string) (output : option string) (overwrite : bool) :
  (forall i, In i before -> isfile fs i = true) -> isfile fs p = false ->
  validate_arguments fs (before ++ p :: after) output overwrite
  = Raised (FileNotFoundError ("input file '" ++ p ++ "' not found")).
Proof.
  intros Hb Hp. unfold validate_arguments.
  assert (H : validate_inputs fs (before ++ p :: after)
              = Raised (FileNotFoundError ("input file '" ++ p ++ "' not found"))).
  { induction before as [|b before IH]; simpl.
    - now rewrite Hp.
    - rewrite (Hb b (or_introl eq_refl)). simpl. apply IH.
      intros i Hi. apply Hb. now right. }
  now rewrite H.
Qed.

Lemma validate_arguments_first_missing_witness :
  (forall i, In i ["a.txt"] -> isfile example_files i = true)
  /\ isfile example_files "c.txt" = false
  /\ validate_arguments example_files (["a.txt"] ++ "c.txt" :: ["b.txt"])
       (Some "a.txt") false
     = Raised (FileNotFoundError ("input file '" ++ "c.txt" ++ "' not found")).
Proof.
  assert (H1 : forall i, In i ["a.txt"] -> isfile example_files i = true).
  { intros i [<-|[]]. reflexivity. }
  assert (H2 : isfile example_files "c.txt" = false) by reflexivity.
  split; [exact H1|]. split; [exact H2|].
  exact (validate_arguments_first_missing example_files ["a.txt"] ["b.txt"] "c.txt"
           (Some "a.txt") false H1 H2).
Defined.

Lemma read_files_total (fs : files) (fps : list string) :
  (forall p, In p fps -> isfile fs p = true) ->
  exists texts,
    read_files fs fps = inr texts /\ map fs fps = map (@Some string) texts.
Proof.
  induction fps as [|p rest IH]; intros H; simpl; [exists []; auto|].
  pose proof (H p (or_introl eq_refl)) as Hp. unfold isfile in Hp.
  unfold read_file. destruct (fs p) as [text|]; [|discriminate].
  destruct IH as (texts & -> & Hm); [intros q Hq; apply H; now right|].
  exists (text :: texts). split; [reflexivity | simpl; now rewrite Hm].
Qed.

Lemma validate_arguments_returns_iff_aux (fs : files) (inputs : list string)
  (output : option string) (overwrite : bool) :
  validate_arguments fs inputs output overwrite = Returned ->
  (forall i, In i inputs -> isfile fs i = true)
  /\ (forall o, output = Some o -> isfile fs o = true -> overwrite = true).
Proof.
  unfold validate_arguments.
  destruct (validate_inputs fs inputs) eqn:Hin; [|discriminate].
  pose proof (proj1 (validate_inputs_Returned fs inputs) Hin) as Hall.
  destruct output as [o|]; [|intros _; split; [exact Hall | discriminate]].
  destruct (isfile fs o) eqn:Ho; destruct overwrite; simpl; try discriminate;
    intros _; split; try exact Hall; intros o' E Ho'; inversion E; subst o';
    congruence.
Qed.

(** X19. The program calls [write_file] only on the non-empty output path
    it was given, only when that path is not an existing file or the
    overwrite flag is set, and only with the text the pipeline makes of the
    contents of the input files, all of which exist. *)
Theorem program_written (order : list string) (fs : files) (input : string)
  (output : option string) (overwrite : bool) (path text : string) :
  program order fs input output overwrite = Written path text ->
  output = Some path /\ path <> ""
  /\ (isfile fs path = false \/ overwrite = true)
  /\ exists texts,
       map fs (map strip (split "|" input)) = map (@Some string) texts
       /\ main order texts = Ok text.
Proof.
  unfold program. intros H.
  destruct (validate_arguments fs (map strip (split "|" input)) output overwrite)
    eqn:Hval; [|discriminate].
  apply validate_arguments_returns_iff_aux in Hval as [Hin Hout].
  destruct (read_files_total _ _ Hin) as (texts & Hread & Hmap).
  rewrite Hread in H.
  destruct (main order texts) as [fused|e] eqn:Hmain; [|discriminate].
  destruct output as [[|c o]|]; try discriminate.
  inversion H; subst path text.
  split; [reflexivity|]. split; [discriminate|]. split.
  - destruct (isfile fs (String c o)) eqn:E; [right | now left].
    now apply (Hout (String c o)).
  - exists texts. auto.
Qed.

Lemma program_written_witness :
  program ["pkgA"; "pkgB"] example_files "a.txt | b.txt" (Some "out.txt") false
    = Written "out.txt" ("pkgA>=2.2" ++ String newline "pkgB")
  /\ Some "out.txt" = Some "out.txt" /\ "out.txt" <> ""
  /\ (isfile example_files "out.txt" = false \/ false = true)
  /\ exists texts,
       map example_files (map strip (split "|" "a.txt | b.txt"))
         = map (@Some string) texts
       /\ main ["pkgA"; "pkgB"] texts = Ok ("pkgA>=2.2" ++ String newline "pkgB").
Proof.
  assert (H : program ["pkgA"; "pkgB"] example_files "a.txt | b.txt"
                (Some "out.txt") false
              = Written "out.txt" ("pkgA>=2.2" ++ String newline "pkgB"))
    by reflexivity.
  split; [exact H|].
  exact (program_written _ _ _ _ _ _ _ H).
Defined.

(** ** The program on its own output *)



















